(** * River mesh generation (zooshi, [src/components/river.cpp])

    A shallow embedding of [RiverComponent]: construction from a [RiverDef],
    export back to a [RiverDef], [CreateRiverMesh], which turns the sampled
    rail into the river strip and the bank strip, and [OnEvent], which
    regenerates every river when the editor reports a changed rail node.

    Conventions of the embedding.
    - [size_t] values are integers in [Z]; every [size_t] operation of the
      source is written with its wrap-around modulo [2^64] ([SizeT]).
    - [float] arithmetic is exact arithmetic on rationals ([Q]): rounding is
      not modelled, and [Normalized] is a function on numbers, where
      mathfu's is NaN for a vector of length zero.  The two [float]
      divisions written in the source return an IEEE result ([float]: a
      finite number, an infinity or NaN), so that a zero divisor is visible.
      Lines 188-194, whose effect depends on rounding, are embedded a second
      time on the numbers of binary32 ([Binary32]).
    - [std::vector] is a list.  A store through [operator[]] outside the
      vector is undefined behaviour in C++: the call ends, with the outcome
      [OutOfBounds] and the index of the first such store.
    - [assert] is the one of a build without [NDEBUG]: a failed assertion
      ends the call.  A [std::vector] constructor throws for a size beyond
      [max_size()]; running out of memory is not modelled.
    - Code outside this file of the source (the C library's [rand],
      [mathfu]'s [Normalized], [fplbase]'s [ComputeNormalsTangents]) is a
      field of the class [Externals].

    Line numbers are those of [src/components/river.cpp]. *)

From Stdlib Require Import ZArith QArith Qabs Lia Lqa.
From Stdlib Require SpecFloat.
From stdpp Require Import base option list gmap strings.

Local Open Scope Z_scope.

(** ** [size_t] arithmetic *)

Module SizeT.
Definition modulus : Z := 2 ^ 64.
Definition wrap (z : Z) : Z := z mod modulus.
Definition add (a b : Z) : Z := wrap (a + b).
Definition sub (a b : Z) : Z := wrap (a - b).
Definition mul (a b : Z) : Z := wrap (a * b).
End SizeT.

(** [int] (32 bits, two's complement) and [unsigned short] conversions. *)

Definition to_int (z : Z) : Z := (z + 2 ^ 31) mod 2 ^ 32 - 2 ^ 31.
Definition to_ushort (z : Z) : Z := z mod 2 ^ 16.

(** ** Numbers and vectors *)

(** The result of a [float] division. *)
Inductive float : Type :=
  | Fin (q : Q)
  | Inf (negative : bool)
  | NaN.

Definition Qneg_bool (a : Q) : bool := negb (Qle_bool 0 a).

Definition fdiv (a b : Q) : float :=
  if Qeq_bool b 0
  then (if Qeq_bool a 0 then NaN else Inf (Qneg_bool a))
  else Fin (a / b).

Record vec2 : Type := Vec2 { v2x : Q; v2y : Q }.
Record vec3 : Type := Vec3 { v3x : Q; v3y : Q; v3z : Q }.
Record vec4 : Type := Vec4 { v4x : Q; v4y : Q; v4z : Q; v4w : Q }.

(** [vec2_packed] of a vertex: the two coordinates come out of divisions. *)
Record texcoord : Type := TexCoord { tc_u : float; tc_v : float }.

Definition vadd (a b : vec3) : vec3 :=
  Vec3 (v3x a + v3x b) (v3y a + v3y b) (v3z a + v3z b).
Definition vsub (a b : vec3) : vec3 :=
  Vec3 (v3x a - v3x b) (v3y a - v3y b) (v3z a - v3z b).
Definition vscale (s : Q) (a : vec3) : vec3 :=
  Vec3 (s * v3x a) (s * v3y a) (s * v3z a).
Definition CrossProduct (a b : vec3) : vec3 :=
  Vec3 (v3y a * v3z b - v3z a * v3y b)
       (v3z a * v3x b - v3x a * v3z b)
       (v3x a * v3y b - v3y a * v3x b).
Definition DotProduct (a b : vec3) : Q :=
  v3x a * v3x b + v3y a * v3y b + v3z a * v3z b.
Definition kAxisZ3f : vec3 := Vec3 0 0 1.

(** Equality of positions as numbers (two fractions of one value are equal). *)
Definition vec3_eq (a b : vec3) : Prop :=
  v3x a == v3x b /\ v3y a == v3y b /\ v3z a == v3z b.

(** [mathfu::Lerp]: [range_start * (1 - percent) + range_end * percent], in
    exact arithmetic; in [float] arithmetic the sum can leave the range by a
    unit in the last place. *)
Definition Lerp (range_start range_end percent : Q) : Q :=
  range_start * (1 - percent) + range_end * percent.

Record NormalMappedVertex : Type := Vertex {
  pos : vec3;
  tc : texcoord;
  norm : vec3;
  tangent : vec4
}.

Definition set_pos (v : NormalMappedVertex) (p : vec3) : NormalMappedVertex :=
  Vertex p (tc v) (norm v) (tangent v).
Definition set_tc (v : NormalMappedVertex) (t : texcoord) : NormalMappedVertex :=
  Vertex (pos v) t (norm v) (tangent v).

#[global] Instance vec2_inhabited : Inhabited vec2 := populate (Vec2 0 0).
#[global] Instance vec3_inhabited : Inhabited vec3 := populate (Vec3 0 0 0).
#[global] Instance vertex_inhabited : Inhabited NormalMappedVertex :=
  populate (Vertex (Vec3 0 0 0) (TexCoord (Fin 0) (Fin 0)) (Vec3 0 0 0) (Vec4 0 0 0 0)).

(** [v[i]] for an index that the source keeps inside the vector. *)
Definition at_ {A : Type} `{Inhabited A} (v : list A) (i : Z) : A :=
  v !!! Z.to_nat i.

(** A counting [for] loop: [body] at [0, 1, ..., count - 1]. *)
Definition for_range {St : Type} (count : Z) (body : Z -> St -> St) (st : St) : St :=
  fold_left (fun s i => body i s) (seqZ 0 count) st.

(** ** Configuration ([RiverConfig] of the game's configuration) *)

(** Modelled from the spec: a bank contour of the river configuration (the
    generated [config_generated.h] is not under [src/]), with its lateral
    range [x_min, x_max] and its vertical range [z_min, z_max]; the accessors
    are those lines 154-155 call. *)
Record RiverBankContour : Type := Contour {
  x_min : Q; x_max : Q; z_min : Q; z_max : Q
}.

(** Modelled from the spec: the river configuration (same header), with the
    fields lines 87-144, 258 and 278 read. *)
Record RiverConfig : Type := Config {
  banks : list RiverBankContour;
  river_index : Z;
  track_height : Q;
  texture_tile_size : Q;
  spline_stepsize : Q;
  material : string;
  shader : string
}.

(** ** What the file takes from its libraries *)

Class Externals : Type := {
  (** the state of the C library's generator behind [rand] *)
  rng_state : Type;
  (** [srand(seed)]: the state the generator is reset to *)
  srand : Z -> rng_state;
  (** [mathfu::Random<float>()]: one draw, and the state after it *)
  Random : rng_state -> Q * rng_state;
  (** [vec3::Normalized], on numbers: mathfu multiplies by the inverse of the
      length, and for a vector of length zero every component is NaN *)
  Normalized : vec3 -> vec3;
  (** C++ leaves the order of the two [Random] calls in the arguments of
      [vec2(...)] to the compiler *)
  args_right_to_left : bool;
  (** [Mesh::ComputeNormalsTangents]: the normal and tangent it writes into
      each vertex *)
  ComputeNormalsTangents : list NormalMappedVertex -> list Z -> list (vec3 * vec4);
  (** the constant [RenderPass_kOpaque] of the generated configuration header *)
  RenderPass_kOpaque : Z
}.

(** ** Outcomes of a call *)

Inductive assert_site : Type :=
  | ConfigInvariant      (* line 110 *)
  | RiverIndexCount      (* line 245 *)
  | RiverVertexCount     (* line 246 *)
  | BankIndexCount       (* line 247 *)
  | BankVertexCount.     (* line 248 *)

Inductive outcome (A : Type) : Type :=
  | Done (a : A)
  | AssertionFailed (site : assert_site)
  | LengthError          (* std::vector(n) with n > max_size() *)
  | NullDereference
  | OutOfBounds (index : Z).  (* v[index] = ... outside v: undefined behaviour *)

Arguments Done {A} a.
Arguments AssertionFailed {A} site.
Arguments LengthError {A}.
Arguments NullDereference {A}.
Arguments OutOfBounds {A} index.

#[global] Instance outcome_ret : MRet outcome := fun A a => Done a.

#[global] Instance outcome_bind : MBind outcome := fun A B k o =>
  match o with
  | Done a => k a
  | AssertionFailed s => AssertionFailed s
  | LengthError => LengthError
  | NullDereference => NullDereference
  | OutOfBounds i => OutOfBounds i
  end.

Definition assert (b : bool) (site : assert_site) : outcome unit :=
  if b then Done tt else AssertionFailed site.

(** [std::vector<T>(n)] of libstdc++ throws when [n] exceeds
    [PTRDIFF_MAX / sizeof(T)]. *)
Definition vector_alloc (n elem_size : Z) : outcome unit :=
  if n <=? (2 ^ 63 - 1) / elem_size then Done tt else LengthError.

Definition sizeof_NormalMappedVertex : Z := 48.
Definition sizeof_ushort : Z := 2.
Definition kNumIndicesPerQuad : Z := 6.

(** ** [CreateRiverMesh]: the vertex and index buffers *)

(** The vectors the vertex loop works on. *)
Record gen_state `{Externals} : Type := GenState {
  g_rng : rng_state;
  g_bank_verts : list NormalMappedVertex;
  g_river_verts : list NormalMappedVertex;
  (** the indices of the stores outside [bank_verts], in order *)
  g_oob : list Z
}.

Arguments GenState {_} _ _ _ _.

Record buffers : Type := Buffers {
  river_verts : list NormalMappedVertex;
  river_indices : list Z;
  bank_verts : list NormalMappedVertex;
  bank_indices : list Z;
  (** the stores outside the bank vertex buffer: none in a call that runs to
      its end *)
  oob_stores : list Z
}.

Section River.
Context `{Ext : Externals}.

Definition push_bank (v : NormalMappedVertex) (st : gen_state) : gen_state :=
  GenState (g_rng st) (g_bank_verts st ++ [v]) (g_river_verts st) (g_oob st).

Definition push_river (v : NormalMappedVertex) (st : gen_state) : gen_state :=
  GenState (g_rng st) (g_bank_verts st) (g_river_verts st ++ [v]) (g_oob st).

(** [bank_verts[i].pos = p] for a [size_t] index [i].  Outside the vector
    the store is undefined behaviour: the vector is left as it is and the
    index is recorded, and [generate] ends the call with [OutOfBounds] at the
    first recorded index. *)
Definition store_pos (i : Z) (p : vec3) (st : gen_state) : gen_state :=
  if i <? Z.of_nat (length (g_bank_verts st))
  then GenState (g_rng st)
                (<[Z.to_nat i := set_pos (at_ (g_bank_verts st) i) p]> (g_bank_verts st))
                (g_river_verts st) (g_oob st)
  else GenState (g_rng st) (g_bank_verts st) (g_river_verts st) (g_oob st ++ [i]).

(** Lines 153-155: one contour's (side, up) offset. *)
Definition draw_offset (b : RiverBankContour) (g : rng_state) : vec2 * rng_state :=
  let '(r1, g1) := Random g in
  let '(r2, g2) := Random g1 in
  if args_right_to_left
  then (Vec2 (Lerp (x_min b) (x_max b) r2) (Lerp (z_min b) (z_max b) r1), g2)
  else (Vec2 (Lerp (x_min b) (x_max b) r1) (Lerp (z_min b) (z_max b) r2), g2).

(** Lines 151-156. *)
Fixpoint draw_offsets (bs : list RiverBankContour) (g : rng_state)
  : list vec2 * rng_state :=
  match bs with
  | [] => ([], g)
  | b :: bs' =>
      let '(o, g1) := draw_offset b g in
      let '(os, g2) := draw_offsets bs' g1 in
      (o :: os, g2)
  end.

(** Lines 168-170: the first and the last contour of the bank of contour [j]. *)
Definition bank_start (river_idx j : Z) : Z :=
  if j <=? river_idx then 0 else SizeT.add river_idx 1.

Definition bank_end (num_bank_contours river_idx j : Z) : Z :=
  if j <=? river_idx then river_idx else SizeT.sub num_bank_contours 1.

(** Lines 171-172. *)
Definition texture_u (num_bank_contours river_idx : Z) (offsets : list vec2) (j : Z)
  : float :=
  let off := at_ offsets j in
  let bank_start := bank_start river_idx j in
  let bank_end := bank_end num_bank_contours river_idx j in
  let bank_width := (v2x (at_ offsets bank_start) - v2x (at_ offsets bank_end))%Q in
  fdiv (v2x off - v2x (at_ offsets bank_end)) bank_width.

(** Lines 160-177: the bank vertex of contour [j]. *)
Definition bank_vertex (num_bank_contours river_idx : Z)
    (track_position track_normal : vec3) (texture_v : float)
    (offsets : list vec2) (j : Z) : NormalMappedVertex :=
  let off := at_ offsets j in
  let vertex :=
    vadd (vadd track_position (vscale (v2x off) track_normal))
         (vscale (v2y off) kAxisZ3f) in
  Vertex vertex
         (TexCoord (texture_u num_bank_contours river_idx offsets j) texture_v)
         (Vec3 0 1 0) (Vec4 1 0 0 1).

(** Lines 187-195: one step of the loop that keeps a vertex from going
    behind the vertex before it, in exact arithmetic; [Binary32.correct_vertex]
    below is the same step in [float] arithmetic. *)
Definition correct_vertex (num_bank_contours : Z) (track_delta : vec3) (j : Z)
    (st : gen_state) : gen_state :=
  let size := Z.of_nat (length (g_bank_verts st)) in
  let prev_verts := SizeT.sub size (SizeT.mul 2 num_bank_contours) in
  let cur_verts := SizeT.sub size num_bank_contours in
  let cur := at_ (g_bank_verts st) (cur_verts + j) in
  let prev := at_ (g_bank_verts st) (prev_verts + j) in
  let vert_delta := vsub (pos cur) (pos prev) in
  let dot := DotProduct vert_delta track_delta in
  let cur_vert_goes_backwards_along_track := Qle_bool dot 0 in
  if cur_vert_goes_backwards_along_track
  then store_pos (cur_verts + j) (vadd (pos prev) (vscale 0.000001 track_delta)) st
  else st.

(** Line 201: [bank_verts[bank_verts.size() - (8 - j)].pos = bank_verts[j].pos]. *)
Definition close_loop_vertex (j : Z) (st : gen_state) : gen_state :=
  let size := Z.of_nat (length (g_bank_verts st)) in
  store_pos (SizeT.sub size (SizeT.sub 8 j)) (pos (at_ (g_bank_verts st) j)) st.

(** Lines 151-178: the offsets of a row are drawn, then its bank vertices are
    appended. *)
Definition emit_bank_row (river : RiverConfig) (track_position track_normal : vec3)
    (texture_v : float) (st : gen_state) : gen_state :=
  let num_bank_contours := Z.of_nat (length (banks river)) in
  let river_idx := SizeT.wrap (river_index river) in
  let '(offsets, g) := draw_offsets (banks river) (g_rng st) in
  for_range num_bank_contours
    (fun j => push_bank (bank_vertex num_bank_contours river_idx track_position
                                     track_normal texture_v offsets j))
    (GenState g (g_bank_verts st) (g_river_verts st) (g_oob st)).

(** Lines 182-196. *)
Definition correct_row (num_bank_contours : Z) (track_delta : vec3) (st : gen_state)
  : gen_state :=
  for_range num_bank_contours (correct_vertex num_bank_contours track_delta) st.

(** Lines 199-202. *)
Definition close_loop (num_bank_contours : Z) (st : gen_state) : gen_state :=
  for_range num_bank_contours close_loop_vertex st.

(** Lines 206-210. *)
Definition emit_river_pair (num_bank_contours river_idx : Z) (texture_v : float)
    (st : gen_state) : gen_state :=
  let size := Z.of_nat (length (g_bank_verts st)) in
  let river_vert := SizeT.add (SizeT.sub size num_bank_contours) river_idx in
  let st :=
    push_river (set_tc (at_ (g_bank_verts st) river_vert)
                       (TexCoord (Fin 0) texture_v)) st in
  push_river (set_tc (at_ (g_bank_verts st) (river_vert + 1))
                     (TexCoord (Fin 1) texture_v)) st.

(** Line 132. *)
Definition prev_sample (segment_count i : Z) : Z :=
  if i =? 0 then SizeT.sub segment_count 1 else SizeT.sub i 1.

(** Line 135. *)
Definition track_delta_at (track : list vec3) (i : Z) : vec3 :=
  vsub (at_ track i) (at_ track (prev_sample (Z.of_nat (length track)) i)).

(** Lines 144-145. *)
Definition texture_v_at (river : RiverConfig) (segment_count i : Z) : float :=
  fdiv (texture_tile_size river * inject_Z i) (inject_Z segment_count).

(** Lines 130-211: the body of the loop over the samples of the track. *)
Definition sample_step (river : RiverConfig) (track : list vec3) (i : Z)
    (st : gen_state) : gen_state :=
  let num_bank_contours := Z.of_nat (length (banks river)) in
  let river_idx := SizeT.wrap (river_index river) in
  let segment_count := Z.of_nat (length track) in
  let track_delta := track_delta_at track i in
  let track_normal := Normalized (CrossProduct track_delta kAxisZ3f) in
  let track_position := vadd (at_ track i) (vscale (track_height river) kAxisZ3f) in
  let texture_v := texture_v_at river segment_count i in
  let st := emit_bank_row river track_position track_normal texture_v st in
  let st := if 0 <? i then correct_row num_bank_contours track_delta st else st in
  let st :=
    if i =? SizeT.sub segment_count 1 then close_loop num_bank_contours st else st in
  emit_river_pair num_bank_contours river_idx texture_v st.

(** Lines 217-226: the lambda [make_quad]; its arguments are [int]s and the
    vector holds [unsigned short]s. *)
Definition make_quad (indices : list Z) (base_index off1 off2 : Z) : list Z :=
  let base_index := to_int base_index in
  let off1 := to_int off1 in
  let off2 := to_int off2 in
  indices ++
  [ to_ushort (base_index + off1);
    to_ushort (base_index + off1 + 1);
    to_ushort (base_index + off2);
    to_ushort (base_index + off2);
    to_ushort (base_index + off1 + 1);
    to_ushort (base_index + off2 + 1) ].

(** Lines 216-242: the body of the loop over the segments.  The loop
    [j <= num_bank_quads] has [num_bank_quads + 1] rounds: after the assertion
    of line 110, [num_bank_quads] is below [2^64 - 1]. *)
Definition index_step (num_bank_contours num_bank_quads river_idx : Z) (i : Z)
    (ix : list Z * list Z) : list Z * list Z :=
  let river_indices := make_quad (fst ix) (SizeT.mul 2 i) 0 2 in
  let bank_indices :=
    for_range (num_bank_quads + 1)
      (fun j bank_indices =>
         if j =? river_idx then bank_indices
         else make_quad bank_indices (SizeT.mul i num_bank_contours) j
                        (SizeT.add num_bank_contours j))
      (snd ix) in
  (river_indices, bank_indices).

(** Line 250: the normals and tangents computed into the bank vertices. *)
Definition with_normals_tangents (verts : list NormalMappedVertex) (indices : list Z)
  : list NormalMappedVertex :=
  let nts := ComputeNormalsTangents verts indices in
  imap (fun k v =>
          match nts !! k with
          | Some nt => Vertex (pos v) (tc v) (fst nt) (snd nt)
          | None => v
          end) verts.

(** Lines 216-242: the loop over the segments. *)
Definition generate_indices (num_bank_contours num_bank_quads river_idx
    segment_count : Z) : list Z * list Z :=
  for_range (SizeT.sub segment_count 1)
    (index_step num_bank_contours num_bank_quads river_idx) ([], []).

(** What the stores outside the vector make of the call: nothing after the
    first of them is defined. *)
Definition defined_stores (oob : list Z) : outcome unit :=
  match oob with
  | [] => Done tt
  | i :: _ => OutOfBounds i
  end.

(** Lines 101-250: from the configuration, the seed and the sampled track to
    the four buffers.  [g0] is the state of the process-wide generator when
    the call starts; the result carries its state when the call ends. *)
Definition generate (river : RiverConfig) (random_seed : Z) (track : list vec3)
    (g0 : rng_state) : outcome (buffers * rng_state) :=
  let num_bank_contours := Z.of_nat (length (banks river)) in
  let num_bank_quads := SizeT.sub num_bank_contours 2 in
  let river_idx := SizeT.wrap (river_index river) in
  let segment_count := Z.of_nat (length track) in
  let river_vert_max := SizeT.mul segment_count 2 in
  let river_index_max := SizeT.mul (SizeT.sub segment_count 1) kNumIndicesPerQuad in
  let bank_vert_max := SizeT.mul segment_count num_bank_contours in
  let bank_index_max :=
    SizeT.mul (SizeT.mul (SizeT.sub segment_count 1) kNumIndicesPerQuad)
              num_bank_quads in
  assert ((2 <=? num_bank_contours) &&
          (river_idx <? SizeT.sub num_bank_contours 1)) ConfigInvariant ;;
  vector_alloc river_vert_max sizeof_NormalMappedVertex ;;
  vector_alloc river_index_max sizeof_ushort ;;
  vector_alloc bank_vert_max sizeof_NormalMappedVertex ;;
  vector_alloc bank_index_max sizeof_ushort ;;
  let g := srand random_seed in
  let st :=
    for_range segment_count (sample_step river track) (GenState g [] [] []) in
  defined_stores (g_oob st) ;;
  let ix :=
    generate_indices num_bank_contours num_bank_quads river_idx segment_count in
  assert (Z.of_nat (length (fst ix)) =? river_index_max) RiverIndexCount ;;
  assert (Z.of_nat (length (g_river_verts st)) =? river_vert_max) RiverVertexCount ;;
  assert (Z.of_nat (length (snd ix)) =? bank_index_max) BankIndexCount ;;
  assert (Z.of_nat (length (g_bank_verts st)) =? bank_vert_max) BankVertexCount ;;
  Done (Buffers (g_river_verts st) (fst ix)
                (with_normals_tangents (g_bank_verts st) (snd ix)) (snd ix)
                (g_oob st),
        g_rng st).

End River.

(** ** The correction of lines 188-194 in [float] arithmetic

    What line 193 stores depends on rounding, which the embedding above
    leaves out.  These lines are therefore embedded a second time, on the
    numbers of IEEE 754 binary32 (24 bits of precision, round to nearest
    even), the [float] of the platforms the game is built for. *)

Module Binary32.

Definition float32 : Type := SpecFloat.spec_float.
Definition prec : Z := 24.
Definition emax : Z := 128.

Definition add : float32 -> float32 -> float32 := SpecFloat.SFadd prec emax.
Definition sub : float32 -> float32 -> float32 := SpecFloat.SFsub prec emax.
Definition mul : float32 -> float32 -> float32 := SpecFloat.SFmul prec emax.
Definition div : float32 -> float32 -> float32 := SpecFloat.SFdiv prec emax.

(** [a <= b] and [a < b]; both are false when an operand is NaN. *)
Definition leb : float32 -> float32 -> bool := SpecFloat.SFleb.
Definition ltb : float32 -> float32 -> bool := SpecFloat.SFltb.

(** The [float] an integer converts to. *)
Definition of_Z (z : Z) : float32 := SpecFloat.binary_normalize prec emax z 0 false.

(** The literal [0.000001f]: the binary32 number nearest to one millionth,
    [8796093 * 2^-43]. *)
Definition epsilon : float32 := SpecFloat.S754_finite false 8796093 (-43).

Record vec3f : Type := Vec3f { fx : float32; fy : float32; fz : float32 }.

Definition vadd (a b : vec3f) : vec3f :=
  Vec3f (add (fx a) (fx b)) (add (fy a) (fy b)) (add (fz a) (fz b)).
Definition vsub (a b : vec3f) : vec3f :=
  Vec3f (sub (fx a) (fx b)) (sub (fy a) (fy b)) (sub (fz a) (fz b)).
Definition vscale (s : float32) (a : vec3f) : vec3f :=
  Vec3f (mul s (fx a)) (mul s (fy a)) (mul s (fz a)).
Definition DotProduct (a b : vec3f) : float32 :=
  add (add (mul (fx a) (fx b)) (mul (fy a) (fy b))) (mul (fz a) (fz b)).

(** The vector of three integers. *)
Definition vec3_of_Z (x y z : Z) : vec3f := Vec3f (of_Z x) (of_Z y) (of_Z z).

(** Lines 188-194: what the round of contour [j] leaves in [cur_verts[j].pos]. *)
Definition correct_vertex (cur prev track_delta : vec3f) : vec3f :=
  let vert_delta := vsub cur prev in
  let dot := DotProduct vert_delta track_delta in
  let cur_vert_goes_backwards_along_track := leb dot (of_Z 0) in
  if cur_vert_goes_backwards_along_track
  then vadd prev (vscale epsilon track_delta)
  else cur.

End Binary32.

(** ** The component: entities, their data and the calls on them *)

(** An [EntityRef]: null, or the entity it refers to. *)
Definition EntityRef : Type := option nat.

(** Modelled from the spec: the river instance data ([components/river.h]
    is not under [src/]): a path name, an integer seed and the bank entity. *)
Record RiverData : Type := MkRiverData {
  rail_name : string;
  random_seed : Z;
  bank : EntityRef
}.

(** Modelled from the spec: the definition record [RiverDef] (the generated
    [components_generated.h] is not under [src/]) with the fields
    [rail_name : string], which export leaves out when it is empty, and
    [random_seed : integer].  A string field of a FlatBuffers table is present
    or absent, and the accessor of an absent one returns the null pointer. *)
Record RiverDef : Type := MkRiverDef {
  def_rail_name : option string;
  def_random_seed : Z
}.

Record Mesh : Type := MkMesh {
  mesh_verts : list NormalMappedVertex;
  mesh_indices : list Z;
  mesh_material : string
}.

Record RenderMeshData : Type := MkRenderMeshData {
  rm_shader : option string;
  rm_mesh : option Mesh;
  rm_ignore_culling : bool;
  rm_pass_mask : Z
}.

Record World `{Externals} : Type := MkWorld {
  (** the process-wide generator of [rand] *)
  w_rng : rng_state;
  (** the river configuration of the services component *)
  w_config : RiverConfig;
  (** the rail manager: the positions of the named rail at a step size *)
  w_rails : string -> Q -> list vec3;
  (** the entity manager: the next entity [AllocateNewEntity] hands out *)
  w_next_entity : nat;
  w_river_data : gmap nat RiverData;
  w_render_mesh : gmap nat RenderMeshData;
  (** the transform component: (child, parent) *)
  w_children : list (nat * nat)
}.

Arguments MkWorld {_} _ _ _ _ _ _ _.

(** What [const char*] assigned to a [std::string] keeps of a string: the
    characters before the first NUL. *)
Fixpoint c_str (s : string) : string :=
  match s with
  | EmptyString => EmptyString
  | String c s' => if Ascii.eqb c Ascii.zero then EmptyString else String c (c_str s')
  end.

Definition deref {A : Type} (p : option A) : outcome A :=
  match p with
  | Some a => Done a
  | None => NullDereference
  end.

Definition default_RiverData : RiverData := MkRiverData EmptyString 0 None.
Definition default_RenderMeshData : RenderMeshData := MkRenderMeshData None None false 0.

(** [AddEntity] and [AddEntityToComponent]: the data of an entity that has
    the component already is kept. *)
Definition add_entity {A : Type} (entity : nat) (dflt : A) (m : gmap nat A) : gmap nat A :=
  match m !! entity with
  | Some _ => m
  | None => <[entity := dflt]> m
  end.

Section Component.
Context `{Ext : Externals}.

(** Lines 83-302. *)
Definition CreateRiverMesh (entity : nat) (w : World) : outcome World :=
  let river := w_config w in
  river_data ← deref (w_river_data w !! entity);
  let track := w_rails w (rail_name river_data) (spline_stepsize river) in
  '(bufs, g) ← generate river (random_seed river_data) track (w_rng w);
  let river_mesh := MkMesh (river_verts bufs) (river_indices bufs) (material river) in
  let bank_mesh :=
    MkMesh (bank_verts bufs) (bank_indices bufs) "materials/ground_material.fplmat" in
  _ ← deref (w_render_mesh w !! entity);
  let render :=
    <[entity := MkRenderMeshData (Some (shader river)) (Some river_mesh) true
                                 (Z.shiftl 1 RenderPass_kOpaque)]> (w_render_mesh w) in
  let w :=
    match bank river_data with
    | None =>
        let new_bank := w_next_entity w in
        MkWorld g river (w_rails w) (S new_bank)
                (<[entity := MkRiverData (rail_name river_data) (random_seed river_data)
                                         (Some new_bank)]> (w_river_data w))
                (add_entity new_bank default_RenderMeshData render)
                ((new_bank, entity) :: w_children w)
    | Some _ =>
        MkWorld g river (w_rails w) (w_next_entity w) (w_river_data w) render
                (w_children w)
    end in
  river_data ← deref (w_river_data w !! entity);
  bank_entity ← deref (bank river_data);
  _ ← deref (w_render_mesh w !! bank_entity);
  Done (MkWorld (w_rng w) (w_config w) (w_rails w) (w_next_entity w) (w_river_data w)
                (<[bank_entity := MkRenderMeshData (Some "shaders/textured_opaque")
                                    (Some bank_mesh) true
                                    (Z.shiftl 1 RenderPass_kOpaque)]> (w_render_mesh w))
                (w_children w)).

(** Lines 50-60. *)
Definition AddFromRawData (entity : nat) (river_def : RiverDef) (w : World)
  : outcome World :=
  let data := add_entity entity default_RiverData (w_river_data w) in
  old ← deref (data !! entity);
  name ← deref (def_rail_name river_def);
  let data :=
    <[entity := MkRiverData (c_str name) (def_random_seed river_def) (bank old)]> data in
  let render := add_entity entity default_RenderMeshData (w_render_mesh w) in
  CreateRiverMesh entity
    (MkWorld (w_rng w) (w_config w) (w_rails w) (w_next_entity w) data render
             (w_children w)).

(** Lines 62-79; [None] is the null pointer returned for an entity without
    river data. *)
Definition ExportRawData (entity : nat) (w : World) : option RiverDef :=
  match w_river_data w !! entity with
  | None => None
  | Some data =>
      let rail_name :=
        if String.eqb (rail_name data) "" then None else Some (rail_name data) in
      Some (MkRiverDef rail_name (random_seed data))
  end.

(** What happens to the world between two regenerations: rails are edited
    and other code draws from the generator. *)
Definition edited (rails : string -> Q -> list vec3) (g : rng_state) (w : World)
  : World :=
  MkWorld g (w_config w) rails (w_next_entity w) (w_river_data w) (w_render_mesh w)
          (w_children w).


End Component.

(** ** [OnEvent]: the events of the editor *)

(** Modelled from the spec: the action of an editor event (the generated
    [editor_events_generated.h] is not under [src/]); line 308 tells
    [EditorEventAction_EntityUpdated] from every other action. *)
Inductive EditorEventAction : Type :=
  | EditorEventAction_EntityUpdated
  | EditorEventAction_other.

(** The payload of an event as line 305 reads it: an editor event with its
    action and entity, or an event of another kind. *)
Inductive EventPayload : Type :=
  | EventSinkUnion_EditorEvent (action : EditorEventAction) (entity : EntityRef)
  | EventSinkUnion_other.

(** How the handling of an event ends: the [switch] is left with the outcome
    of the regenerations, or the [assert(0)] of line 323 fails. *)
Inductive handled (A : Type) : Type :=
  | Handled (o : outcome A)
  | UnexpectedEvent.

Arguments Handled {A} o.
Arguments UnexpectedEvent {A}.

Section Events.
Context `{Ext : Externals}.

(** Lines 316-318: the loop over the entities of the river component. *)
Fixpoint regenerate_all (pool : list nat) (w : World) : outcome World :=
  match pool with
  | [] => Done w
  | entity :: pool' => w ← CreateRiverMesh entity w; regenerate_all pool' w
  end.

(** Lines 304-325.  [rail_node] tells the entities that have [RailNodeData];
    [pool] is the entities of the river component in the order [begin()] to
    [end()] goes through them. *)
Definition OnEvent (rail_node : nat -> bool) (pool : list nat)
    (event_payload : EventPayload) (w : World) : handled World :=
  match event_payload with
  | EventSinkUnion_EditorEvent action entity =>
      Handled
        match action, entity with
        | EditorEventAction_EntityUpdated, Some entity =>
            if rail_node entity then regenerate_all pool w else Done w
        | _, _ => Done w
        end
  | EventSinkUnion_other => UnexpectedEvent
  end.

End Events.

(** ** The statements of the specification *)

Definition num_contours (river : RiverConfig) : Z := Z.of_nat (length (banks river)).

(** The precondition on the configuration. *)
Definition valid_config (river : RiverConfig) : Prop :=
  2 <= num_contours river /\ 0 <= river_index river < num_contours river - 1.

(** The configuration as its serialized form can hold it: the length of a
    vector is a 32-bit count, [river_index] an integer of at most 64 bits. *)
Definition config_representable (river : RiverConfig) : Prop :=
  num_contours river < 2 ^ 32 /\ - 2 ^ 63 <= river_index river < 2 ^ 64.

(** The bank vertex buffer, the largest of the four, is within what a
    [std::vector] can hold. *)
Definition buffers_fit (river : RiverConfig) (track : list vec3) : Prop :=
  sizeof_NormalMappedVertex * (Z.of_nat (length track) * num_contours river)
  <= 2 ^ 63 - 1.

(** ** Derived notions the statements use *)

Section Draws.
Context `{Ext : Externals}.

(** The offsets drawn for a row that starts with the generator in state [g]. *)
Definition row_offsets (river : RiverConfig) (g : rng_state) : list vec2 :=
  fst (draw_offsets (banks river) g).

Definition rng_after_row (river : RiverConfig) (g : rng_state) : rng_state :=
  snd (draw_offsets (banks river) g).

(** The generator when row [i] starts. *)
Definition row_rng (river : RiverConfig) (seed : Z) (i : Z) : rng_state :=
  Nat.iter (Z.to_nat i) (rng_after_row river) (srand seed).

End Draws.

(** The position line 193 leaves in a vertex. *)
Definition corrected_pos (cur prev track_delta : vec3) : vec3 :=
  if Qle_bool (DotProduct (vsub cur prev) track_delta) 0
  then vadd prev (vscale 0.000001 track_delta)
  else cur.

(** The claim C3 as the specification states it. *)
Definition forward_progress (river : RiverConfig) (track : list vec3)
    (bank : list NormalMappedVertex) : Prop :=
  forall i j,
    0 < i < Z.of_nat (length track) -> 0 <= j < num_contours river ->
    (0 < DotProduct
           (vsub (pos (at_ bank (i * num_contours river + j)))
                 (pos (at_ bank ((i - 1) * num_contours river + j))))
           (vsub (at_ track i) (at_ track (i - 1))))%Q.

(** The index lists in the words of the specification: one quad per segment
    for the river, one quad per segment and adjacent pair of contours for the
    bank, the pair at [river_index] left out; each quad is the two triangles
    [(base, base+1, base+stride)] and [(base+stride, base+1, base+stride+1)]. *)
Definition quad_triangles (base stride : Z) : list Z :=
  [base; base + 1; base + stride; base + stride; base + 1; base + stride + 1].

Definition spec_river_indices (segment_count : Z) : list Z :=
  i ← seqZ 0 (segment_count - 1); quad_triangles (2 * i) 2.

Definition contour_pairs (num_contours river_index : Z) : list Z :=
  filter (fun j => j <> river_index) (seqZ 0 (num_contours - 1)).

Definition bank_quads (num_contours river_index segment_count : Z) : list (Z * Z) :=
  i ← seqZ 0 (segment_count - 1);
  j ← contour_pairs num_contours river_index;
  [(i, j)].

Definition spec_bank_indices (num_contours river_index segment_count : Z) : list Z :=
  q ← bank_quads num_contours river_index segment_count;
  quad_triangles (fst q * num_contours + snd q) num_contours.


(** The width of the bank of contour [j], line 171. *)
Definition bank_width (num_bank_contours river_idx : Z) (offsets : list vec2) (j : Z) : Q :=
  (v2x (at_ offsets (bank_start river_idx j)) -
   v2x (at_ offsets (bank_end num_bank_contours river_idx j)))%Q.

(** The bank entity an entity's river data refers to. *)
Definition bank_of `{Ext : Externals} (entity : nat) (w : World) : EntityRef :=
  d ← w_river_data w !! entity; bank d.

(** ** Derived notions the further properties use *)

Section Notions.
Context `{Ext : Externals}.

(** One draw: the state of the generator after [mathfu::Random<float>()]. *)
Definition draw (g : rng_state) : rng_state := snd (Random g).

(** Lines 264-268 and 277-281: what the river entity renders. *)
Definition river_render (river : RiverConfig) (bufs : buffers) : RenderMeshData :=
  MkRenderMeshData (Some (shader river))
    (Some (MkMesh (river_verts bufs) (river_indices bufs) (material river)))
    true (Z.shiftl 1 RenderPass_kOpaque).

(** Lines 270-274 and 296-301: what the bank entity renders. *)
Definition bank_render (bufs : buffers) : RenderMeshData :=
  MkRenderMeshData (Some "shaders/textured_opaque")
    (Some (MkMesh (bank_verts bufs) (bank_indices bufs)
                  "materials/ground_material.fplmat"))
    true (Z.shiftl 1 RenderPass_kOpaque).

(** What [generate] is called with for a river with the data [d] in [w]. *)
Definition generate_for (d : RiverData) (w : World) : outcome (buffers * rng_state) :=
  generate (w_config w) (random_seed d)
           (w_rails w (rail_name d) (spline_stepsize (w_config w))) (w_rng w).

(** The entities as the entity manager and this component keep them: rivers
    and their banks are allocated entities, a bank is not a river, and no two
    rivers have the same bank. *)
Record entities_ok (w : World) : Prop := EntitiesOk {
  ok_river_live : forall r d,
    w_river_data w !! r = Some d -> (r < w_next_entity w)%nat;
  ok_bank_live : forall r d b,
    w_river_data w !! r = Some d -> bank d = Some b -> (b < w_next_entity w)%nat;
  ok_bank_not_river : forall r d b,
    w_river_data w !! r = Some d -> bank d = Some b -> w_river_data w !! b = None;
  ok_bank_own : forall r r' d d' b,
    w_river_data w !! r = Some d -> w_river_data w !! r' = Some d' ->
    bank d = Some b -> bank d' = Some b -> r = r'
}.

End Notions.

(** The normal and the tangent line 176 gives every vertex it appends. *)
Definition flat (v : NormalMappedVertex) : Prop :=
  norm v = Vec3 0 1 0 /\ tangent v = Vec4 1 0 0 1.

(** ** Concrete inputs *)

(** A stand-in for [Normalized] that is exact on the vectors along one axis,
    the only ones the concrete tracks below produce. *)
Definition axis_normalized (v : vec3) : vec3 :=
  let len := (Qabs (v3x v) + Qabs (v3y v) + Qabs (v3z v))%Q in
  Vec3 (v3x v / len) (v3y v / len) (v3z v / len).

(** A generator that counts its draws and returns quarters in [0, 1]. *)
Definition example_externals : Externals := {|
  rng_state := Z;
  srand := fun seed => seed;
  Random := fun g => (Qmake (g mod 5) 4, g + 1);
  Normalized := axis_normalized;
  args_right_to_left := false;
  ComputeNormalsTangents := fun verts _ => (fun _ => (Vec3 0 0 1, Vec4 1 0 0 1)) <$> verts;
  RenderPass_kOpaque := 0
|}.

(** A contour without jitter: whatever is drawn, the offset is [(x, z)]. *)
Definition fixed_contour (x z : Q) : RiverBankContour := Contour x x z z.

Definition config_of (bs : list RiverBankContour) (river_idx : Z) : RiverConfig :=
  Config bs river_idx 0 1 1 "materials/river.fplmat" "shaders/water".

(** One contour on each side of the river. *)
Definition river2 : RiverConfig :=
  config_of [fixed_contour (-1) 0; fixed_contour 1 0] 0.

Definition river4 : RiverConfig :=
  config_of [fixed_contour (-3) 1; fixed_contour (-1) 0;
             fixed_contour 1 0; fixed_contour 3 1] 1.

(** The case of the comment of line 231: eight contours, the river between
    the fourth and the fifth. *)
Definition river8 : RiverConfig :=
  config_of [fixed_contour (-4) 2; fixed_contour (-3) 1; fixed_contour (-2) 1;
             fixed_contour (-1) 0; fixed_contour 1 0; fixed_contour 2 1;
             fixed_contour 3 1; fixed_contour 4 2] 3.

(** Nine contours, the river between the fifth and the sixth. *)
Definition river9 : RiverConfig :=
  config_of [fixed_contour (-5) 2; fixed_contour (-4) 2; fixed_contour (-3) 1;
             fixed_contour (-2) 1; fixed_contour (-1) 0; fixed_contour 1 0;
             fixed_contour 2 1; fixed_contour 3 1; fixed_contour 4 2] 4.

(** A configuration with a single contour: malformed. *)
Definition river1 : RiverConfig := config_of [fixed_contour 0 0] 0.

Definition track2 : list vec3 := [Vec3 0 0 0; Vec3 1 0 0].
Definition track3 : list vec3 := [Vec3 0 0 0; Vec3 1 0 0; Vec3 2 0 0].
Definition track4 : list vec3 := [Vec3 0 0 0; Vec3 1 0 0; Vec3 2 0 0; Vec3 3 0 0].

(** A closed loop: the corners of a rectangle, four by one, a thousand units
    from the origin. *)
Definition loop_track : list vec3 :=
  [Vec3 1000 0 0; Vec3 1004 0 0; Vec3 1004 1 0; Vec3 1000 1 0].

(** A world with one entity allocated, [0], that has no component yet. *)
Definition example_world (river : RiverConfig) (track : list vec3)
  : @World example_externals :=
  @MkWorld example_externals 0%Z river (fun _ _ => track) 1%nat ∅ ∅ [].

(** A world whose entity [0] is a river without a bank entity yet. *)
Definition river_world (river : RiverConfig) (track : list vec3)
  : @World example_externals :=
  @MkWorld example_externals 0%Z river (fun _ _ => track) 1%nat
           {[ 0%nat := MkRiverData "rail" 7 None ]}
           {[ 0%nat := default_RenderMeshData ]} [].

(** The world after the call, when the call runs to its end. *)
Definition after (w : @World example_externals)
    (o : outcome (@World example_externals)) : @World example_externals :=
  match o with
  | Done w' => w'
  | _ => w
  end.

Definition generated_once : @World example_externals :=
  after (river_world river8 track4)
        (CreateRiverMesh (Ext := example_externals) 0 (river_world river8 track4)).


(** A track of 8193 samples along the x axis: with eight contours the bank
    has 65544 vertices. *)
Definition long_track : list vec3 :=
  (fun i => Vec3 (inject_Z i) 0 0) <$> seqZ 0 8193.

(** Entity [0] of [example_world] constructed from a definition. *)
Definition constructed : @World example_externals :=
  after (example_world river8 track4)
        (AddFromRawData (Ext := example_externals) 0 (MkRiverDef (Some "rail") 7)
                        (example_world river8 track4)).

(** Two rivers without a bank entity yet, entities [0] and [1], with
    different seeds. *)
Definition two_rivers : @World example_externals :=
  @MkWorld example_externals 0%Z river8 (fun _ _ => track4) 2%nat
           {[ 0%nat := MkRiverData "rail" 7 None; 1%nat := MkRiverData "rail" 8 None ]}
           {[ 0%nat := default_RenderMeshData; 1%nat := default_RenderMeshData ]} [].

Definition two_rivers_updated : @World example_externals :=
  after two_rivers (regenerate_all (Ext := example_externals) [0%nat; 1%nat] two_rivers).

(** * Proofs *)

(** ** Loops and [size_t] *)

Lemma wrap_small z : 0 <= z < SizeT.modulus -> SizeT.wrap z = z.
Proof. intros Hz. unfold SizeT.wrap. apply Z.mod_small. exact Hz. Qed.

Lemma wrap_range z : 0 <= SizeT.wrap z < SizeT.modulus.
Proof. unfold SizeT.wrap. apply Z.mod_pos_bound. reflexivity. Qed.

Lemma sub_small a b : 0 <= a - b < SizeT.modulus -> SizeT.sub a b = a - b.
Proof. apply wrap_small. Qed.

Lemma add_small a b : 0 <= a + b < SizeT.modulus -> SizeT.add a b = a + b.
Proof. apply wrap_small. Qed.

Lemma mul_small a b : 0 <= a * b < SizeT.modulus -> SizeT.mul a b = a * b.
Proof. apply wrap_small. Qed.

Lemma sub_borrow a b :
  - SizeT.modulus <= a - b < 0 -> SizeT.sub a b = a - b + SizeT.modulus.
Proof.
  intros Hab. unfold SizeT.sub, SizeT.wrap.
  symmetry. apply (Z.mod_unique _ _ (-1)); unfold SizeT.modulus in *; lia.
Qed.

Lemma for_range_nil {St : Type} count (body : Z -> St -> St) st :
  count <= 0 -> for_range count body st = st.
Proof. intros Hc. unfold for_range. rewrite seqZ_nil by exact Hc. reflexivity. Qed.

Lemma for_range_succ {St : Type} k (body : Z -> St -> St) st :
  0 <= k -> for_range (k + 1) body st = body k (for_range k body st).
Proof.
  intros Hk. unfold for_range.
  rewrite seqZ_app by lia. rewrite fold_left_app.
  rewrite (seqZ_cons _ 1) by lia. rewrite (seqZ_nil _ (Z.pred 1)) by lia.
  simpl. rewrite Z.add_0_l. reflexivity.
Qed.

(** A loop invariant: [P k] holds of the state after [k] rounds. *)
Lemma for_range_invariant {St : Type} (P : Z -> St -> Prop) count
    (body : Z -> St -> St) st :
  0 <= count ->
  P 0 st ->
  (forall k s, 0 <= k < count -> P k s -> P (k + 1) (body k s)) ->
  P count (for_range count body st).
Proof.
  intros Hc H0 Hstep.
  assert (Hall : forall k, 0 <= k -> k <= count -> P k (for_range k body st)).
  { intros k Hk. pattern k. apply natlike_ind; [ | | exact Hk].
    - intros _. rewrite for_range_nil by lia. exact H0.
    - intros x Hx IH Hle. replace (Z.succ x) with (x + 1) by lia.
      rewrite for_range_succ by exact Hx. apply Hstep; [lia | apply IH; lia]. }
  apply Hall; lia.
Qed.

(** ** Reading and writing vectors *)

Lemma at_app_l {A : Type} `{Inhabited A} (l1 l2 : list A) i :
  0 <= i < Z.of_nat (length l1) -> at_ (l1 ++ l2) i = at_ l1 i.
Proof. intros Hi. unfold at_. apply lookup_total_app_l. lia. Qed.

Lemma at_app_r {A : Type} `{Inhabited A} (l1 l2 : list A) i :
  Z.of_nat (length l1) <= i -> at_ (l1 ++ l2) i = at_ l2 (i - Z.of_nat (length l1)).
Proof.
  intros Hi. unfold at_. rewrite lookup_total_app_r by lia.
  f_equal. lia.
Qed.

Lemma at_insert_eq {A : Type} `{Inhabited A} (l : list A) i x :
  0 <= i < Z.of_nat (length l) -> at_ (<[Z.to_nat i := x]> l) i = x.
Proof. intros Hi. unfold at_. apply list_lookup_total_insert_eq. lia. Qed.

Lemma at_insert_ne {A : Type} `{Inhabited A} (l : list A) i k x :
  0 <= i -> 0 <= k -> i <> k -> at_ (<[Z.to_nat i := x]> l) k = at_ l k.
Proof. intros Hi Hk Hne. unfold at_. apply list_lookup_total_insert_ne. lia. Qed.

Lemma at_fmap_seqZ {A : Type} `{Inhabited A} (f : Z -> A) n j :
  0 <= j < n -> at_ (f <$> seqZ 0 n) j = f j.
Proof.
  intros Hj. unfold at_.
  rewrite list_lookup_total_alt, list_lookup_fmap, lookup_seqZ_lt by lia.
  simpl. f_equal. lia.
Qed.

Section GenState.
Context `{Ext : Externals}.

Lemma store_pos_in i p (st : gen_state) :
  0 <= i < Z.of_nat (length (g_bank_verts st)) ->
  store_pos i p st =
  GenState (g_rng st)
           (<[Z.to_nat i := set_pos (at_ (g_bank_verts st) i) p]> (g_bank_verts st))
           (g_river_verts st) (g_oob st).
Proof.
  intros Hi. unfold store_pos.
  replace (i <? Z.of_nat (length (g_bank_verts st))) with true
    by (symmetry; apply Z.ltb_lt; lia).
  reflexivity.
Qed.

Lemma store_pos_out i p (st : gen_state) :
  Z.of_nat (length (g_bank_verts st)) <= i ->
  store_pos i p st =
  GenState (g_rng st) (g_bank_verts st) (g_river_verts st) (g_oob st ++ [i]).
Proof.
  intros Hi. unfold store_pos.
  replace (i <? Z.of_nat (length (g_bank_verts st))) with false
    by (symmetry; apply Z.ltb_ge; lia).
  reflexivity.
Qed.

(** A store changes positions only: the frame every step of the vertex loop
    after the row is appended keeps. *)
Record same_shape (st st' : gen_state) : Prop := SameShape {
  shape_rng : g_rng st' = g_rng st;
  shape_river : g_river_verts st' = g_river_verts st;
  shape_length : length (g_bank_verts st') = length (g_bank_verts st);
  shape_tc : forall k, tc (at_ (g_bank_verts st') k) = tc (at_ (g_bank_verts st) k)
}.

Lemma same_shape_refl st : same_shape st st.
Proof. split; reflexivity. Qed.

Lemma same_shape_trans st1 st2 st3 :
  same_shape st1 st2 -> same_shape st2 st3 -> same_shape st1 st3.
Proof.
  intros [a1 b1 c1 d1] [a2 b2 c2 d2]. split.
  - congruence.
  - congruence.
  - congruence.
  - intros k. rewrite d2. apply d1.
Qed.

Lemma at_insert_set_pos (l : list NormalMappedVertex) i k p :
  0 <= i < Z.of_nat (length l) ->
  tc (at_ (<[Z.to_nat i := set_pos (at_ l i) p]> l) k) = tc (at_ l k).
Proof.
  intros Hi. unfold at_.
  destruct (decide (Z.to_nat i = Z.to_nat k)) as [Heq | Hne].
  - rewrite <- Heq. rewrite list_lookup_total_insert_eq by lia. reflexivity.
  - rewrite list_lookup_total_insert_ne by exact Hne. reflexivity.
Qed.

Lemma store_pos_shape i p st : 0 <= i -> same_shape st (store_pos i p st).
Proof.
  intros Hi.
  destruct (Z_lt_ge_dec i (Z.of_nat (length (g_bank_verts st)))) as [Hlt | Hge].
  - rewrite store_pos_in by lia. split; simpl; try reflexivity.
    + apply length_insert.
    + intros k. apply at_insert_set_pos. lia.
  - rewrite store_pos_out by lia. split; reflexivity.
Qed.

Lemma store_pos_other i p st k :
  0 <= i -> 0 <= k -> i <> k ->
  at_ (g_bank_verts (store_pos i p st)) k = at_ (g_bank_verts st) k.
Proof.
  intros Hi Hk Hne.
  destruct (Z_lt_ge_dec i (Z.of_nat (length (g_bank_verts st)))) as [Hlt | Hge].
  - rewrite store_pos_in by lia. simpl. apply at_insert_ne; assumption.
  - rewrite store_pos_out by lia. reflexivity.
Qed.

Lemma store_pos_same i p st :
  0 <= i < Z.of_nat (length (g_bank_verts st)) ->
  at_ (g_bank_verts (store_pos i p st)) i = set_pos (at_ (g_bank_verts st) i) p.
Proof.
  intros Hi. rewrite store_pos_in by exact Hi. simpl.
  apply at_insert_eq. exact Hi.
Qed.

Lemma store_pos_oob_in i p st :
  0 <= i < Z.of_nat (length (g_bank_verts st)) ->
  g_oob (store_pos i p st) = g_oob st.
Proof. intros Hi. rewrite store_pos_in by exact Hi. reflexivity. Qed.

End GenState.

(** ** The steps of the vertex loop *)

Section Steps.
Context `{Ext : Externals}.

Lemma seqZ_snoc k : 0 <= k -> seqZ 0 (k + 1) = seqZ 0 k ++ [k].
Proof.
  intros Hk. rewrite seqZ_app by lia.
  rewrite (seqZ_cons _ 1) by lia. rewrite (seqZ_nil _ (Z.pred 1)) by lia.
  reflexivity.
Qed.

Lemma push_bank_loop n (f : Z -> NormalMappedVertex) (st : gen_state) :
  0 <= n ->
  for_range n (fun j => push_bank (f j)) st =
  GenState (g_rng st) (g_bank_verts st ++ (f <$> seqZ 0 n)) (g_river_verts st)
           (g_oob st).
Proof.
  intros Hn.
  apply (for_range_invariant
           (fun k s => s = GenState (g_rng st) (g_bank_verts st ++ (f <$> seqZ 0 k))
                                    (g_river_verts st) (g_oob st))).
  - exact Hn.
  - simpl. rewrite app_nil_r. destruct st; reflexivity.
  - intros k s Hk ->. unfold push_bank. simpl.
    rewrite seqZ_snoc by lia. rewrite fmap_app. simpl.
    rewrite <- app_assoc. reflexivity.
Qed.

Lemma emit_bank_row_eq river track_position track_normal texture_v st :
  emit_bank_row river track_position track_normal texture_v st =
  GenState (rng_after_row river (g_rng st))
    (g_bank_verts st ++
     (bank_vertex (Z.of_nat (length (banks river))) (SizeT.wrap (river_index river))
                  track_position track_normal texture_v
                  (row_offsets river (g_rng st))
      <$> seqZ 0 (Z.of_nat (length (banks river)))))
    (g_river_verts st) (g_oob st).
Proof.
  unfold emit_bank_row, row_offsets, rng_after_row.
  destruct (draw_offsets (banks river) (g_rng st)) as [offsets g].
  rewrite push_bank_loop by lia. reflexivity.
Qed.

Lemma correct_row_spec n track_delta (st : gen_state) :
  let B := g_bank_verts st in
  let size := Z.of_nat (length B) in
  0 <= n -> 2 * n <= size -> size < SizeT.modulus ->
  let st' := correct_row n track_delta st in
  same_shape st st' /\
  g_oob st' = g_oob st /\
  (forall k, 0 <= k < size - n -> at_ (g_bank_verts st') k = at_ B k) /\
  (forall j, 0 <= j < n ->
     pos (at_ (g_bank_verts st') (size - n + j)) =
     corrected_pos (pos (at_ B (size - n + j))) (pos (at_ B (size - 2 * n + j)))
                   track_delta).
Proof.
  intros B size Hn Hsize Hmod st'. subst st'. unfold correct_row.
  assert (Hmodv : SizeT.modulus = 2 ^ 64) by reflexivity.
  set (P := fun (m : Z) (s : gen_state) =>
    same_shape st s /\
    g_oob s = g_oob st /\
    (forall k, 0 <= k -> k < size - n \/ size - n + m <= k ->
       at_ (g_bank_verts s) k = at_ B k) /\
    (forall j, 0 <= j < m ->
       pos (at_ (g_bank_verts s) (size - n + j)) =
       corrected_pos (pos (at_ B (size - n + j))) (pos (at_ B (size - 2 * n + j)))
                     track_delta)).
  assert (HP : P n (for_range n (correct_vertex n track_delta) st)).
  { apply for_range_invariant.
    - exact Hn.
    - unfold P. split; [apply same_shape_refl |]. split; [reflexivity |].
      split; [reflexivity |]. intros j Hj. lia.
    - intros m s Hm (Hshape & Hoob & Hframe & Hdone).
      assert (Hlen : Z.of_nat (length (g_bank_verts s)) = size).
      { unfold size, B. rewrite (shape_length _ _ Hshape). reflexivity. }
      unfold correct_vertex. rewrite Hlen.
      rewrite (mul_small 2 n) by lia.
      rewrite (sub_small size (2 * n)) by lia.
      rewrite (sub_small size n) by lia.
      rewrite (Hframe (size - n + m)) by lia.
      rewrite (Hframe (size - 2 * n + m)) by lia.
      fold B.
      destruct (Qle_bool
                  (DotProduct
                     (vsub (pos (at_ B (size - n + m)))
                           (pos (at_ B (size - 2 * n + m)))) track_delta) 0)
        eqn:Hdot.
      + unfold P. split.
        { eapply same_shape_trans; [exact Hshape | apply store_pos_shape; lia]. }
        split.
        { rewrite store_pos_oob_in by lia. exact Hoob. }
        split.
        { intros k Hk Hcase. rewrite store_pos_other by lia. apply Hframe; lia. }
        intros j Hj. destruct (Z.eq_dec j m) as [-> | Hne].
        * rewrite store_pos_same by lia. simpl.
          unfold corrected_pos. rewrite Hdot. reflexivity.
        * rewrite store_pos_other by lia. apply Hdone. lia.
      + unfold P. split; [exact Hshape |]. split; [exact Hoob |]. split.
        { intros k Hk Hcase. apply Hframe; lia. }
        intros j Hj. destruct (Z.eq_dec j m) as [-> | Hne].
        * rewrite (Hframe (size - n + m)) by lia.
          unfold corrected_pos. rewrite Hdot. reflexivity.
        * apply Hdone. lia. }
  destruct HP as (Hshape & Hoob & Hframe & Hdone).
  split; [exact Hshape |]. split; [exact Hoob |]. split.
  - intros k Hk. apply Hframe; lia.
  - exact Hdone.
Qed.

(** Where line 201 stores: never below [size - 8]. *)
Lemma close_index_lower size j :
  0 <= j -> 0 <= size -> size + j < SizeT.modulus ->
  size - 8 <= SizeT.sub size (SizeT.sub 8 j).
Proof.
  intros Hj Hsize Hmod.
  assert (Hmodv : SizeT.modulus = 2 ^ 64) by reflexivity.
  destruct (Z_le_gt_dec j 8) as [Hle | Hgt].
  - rewrite (sub_small 8 j) by lia.
    destruct (Z_le_gt_dec 0 (size - (8 - j))) as [Hpos | Hneg].
    + rewrite sub_small by lia. lia.
    + rewrite sub_borrow by lia. lia.
  - rewrite (sub_borrow 8 j) by lia.
    rewrite sub_borrow by lia. lia.
Qed.

Lemma close_loop_spec n (st : gen_state) :
  let B := g_bank_verts st in
  let size := Z.of_nat (length B) in
  0 <= n -> size + n < SizeT.modulus ->
  let st' := close_loop n st in
  same_shape st st' /\
  (forall k, 0 <= k < size - 8 -> at_ (g_bank_verts st') k = at_ B k).
Proof.
  intros B size Hn Hmod st'. subst st'. unfold close_loop.
  apply (for_range_invariant
           (fun (m : Z) (s : gen_state) =>
              same_shape st s /\
              (forall k, 0 <= k < size - 8 -> at_ (g_bank_verts s) k = at_ B k))).
  - exact Hn.
  - split; [apply same_shape_refl | reflexivity].
  - intros m s Hm (Hshape & Hframe).
    assert (Hlen : Z.of_nat (length (g_bank_verts s)) = size).
    { unfold size, B. rewrite (shape_length _ _ Hshape). reflexivity. }
    unfold close_loop_vertex. rewrite Hlen.
    assert (Hidx : size - 8 <= SizeT.sub size (SizeT.sub 8 m)).
    { apply close_index_lower; lia. }
    assert (Hidx0 : 0 <= SizeT.sub size (SizeT.sub 8 m)).
    { apply wrap_range. }
    split.
    + eapply same_shape_trans; [exact Hshape |]. apply store_pos_shape. lia.
    + intros k Hk. rewrite store_pos_other by lia. apply Hframe. exact Hk.
Qed.

Lemma emit_river_pair_eq n river_idx texture_v (st : gen_state) :
  let B := g_bank_verts st in
  let size := Z.of_nat (length B) in
  0 <= river_idx -> river_idx < n -> n <= size -> size < SizeT.modulus ->
  emit_river_pair n river_idx texture_v st =
  GenState (g_rng st) B
    (g_river_verts st ++
     [set_tc (at_ B (size - n + river_idx)) (TexCoord (Fin 0) texture_v);
      set_tc (at_ B (size - n + river_idx + 1)) (TexCoord (Fin 1) texture_v)])
    (g_oob st).
Proof.
  intros B size Hr Hrn Hn Hmod. unfold emit_river_pair, push_river. simpl.
  fold B. fold size.
  rewrite (sub_small size n) by lia.
  rewrite add_small by lia.
  rewrite <- app_assoc. reflexivity.
Qed.

End Steps.

(** ** The rows of the bank *)

Section Rows.
Context `{Ext : Externals}.
Variable river : RiverConfig.
Variable seed : Z.
Variable track : list vec3.

Let n := num_contours river.
Let r := SizeT.wrap (river_index river).
Let S := Z.of_nat (length track).

Definition track_position_at (i : Z) : vec3 :=
  vadd (at_ track i) (vscale (track_height river) kAxisZ3f).

Definition track_normal_at (i : Z) : vec3 :=
  Normalized (CrossProduct (track_delta_at track i) kAxisZ3f).

(** The bank vertex of row [i] and contour [j] as line 174 appends it. *)
Definition raw_vertex (i j : Z) : NormalMappedVertex :=
  bank_vertex n r (track_position_at i) (track_normal_at i)
              (texture_v_at river S i) (row_offsets river (row_rng river seed i)) j.

(** The part of [sample_step] before the loop is closed. *)
Definition pre_close (i : Z) (st : gen_state) : gen_state :=
  let st := emit_bank_row river (track_position_at i) (track_normal_at i)
                          (texture_v_at river S i) st in
  if 0 <? i then correct_row n (track_delta_at track i) st else st.

Lemma sample_step_eq i st :
  sample_step river track i st =
  emit_river_pair n r (texture_v_at river S i)
    (if i =? SizeT.sub S 1 then close_loop n (pre_close i st) else pre_close i st).
Proof. reflexivity. Qed.

(** The rows [0 .. i-1] of the bank as the loop leaves them before any
    closing of the loop. *)
Record rows_ok (i : Z) (B : list NormalMappedVertex) : Prop := RowsOk {
  rows_length : Z.of_nat (length B) = i * n;
  rows_tc : forall k j, 0 <= k < i -> 0 <= j < n ->
    tc (at_ B (k * n + j)) = tc (raw_vertex k j);
  rows_first : forall j, 0 < i -> 0 <= j < n ->
    pos (at_ B j) = pos (raw_vertex 0 j);
  rows_next : forall k j, 0 < k < i -> 0 <= j < n ->
    pos (at_ B (k * n + j)) =
    corrected_pos (pos (raw_vertex k j)) (pos (at_ B ((k - 1) * n + j)))
                  (track_delta_at track k)
}.

Lemma row_rng_succ i : 0 <= i -> row_rng river seed (i + 1) = rng_after_row river (row_rng river seed i).
Proof.
  intros Hi. unfold row_rng.
  replace (Z.to_nat (i + 1)) with (Datatypes.S (Z.to_nat i)) by lia.
  reflexivity.
Qed.

Lemma pre_close_rows i (st : gen_state) :
  0 <= i -> (i + 1) * n < SizeT.modulus ->
  rows_ok i (g_bank_verts st) -> g_rng st = row_rng river seed i ->
  let st' := pre_close i st in
  rows_ok (i + 1) (g_bank_verts st') /\
  g_rng st' = row_rng river seed (i + 1) /\
  g_river_verts st' = g_river_verts st /\
  g_oob st' = g_oob st /\
  (forall k, 0 <= k < i * n ->
     at_ (g_bank_verts st') k = at_ (g_bank_verts st) k).
Proof.
  intros Hi Hmod Hrows Hrng st'. subst st'.
  assert (Hn : 0 <= n) by (unfold n, num_contours; lia).
  destruct Hrows as [Hlen Htc Hfirst Hnext].
  set (B := g_bank_verts st) in *.
  set (row := raw_vertex i <$> seqZ 0 n).
  assert (Hemit :
    emit_bank_row river (track_position_at i) (track_normal_at i)
                  (texture_v_at river S i) st =
    GenState (row_rng river seed (i + 1)) (B ++ row) (g_river_verts st) (g_oob st)).
  { rewrite emit_bank_row_eq. rewrite Hrng. rewrite <- row_rng_succ by exact Hi.
    reflexivity. }
  assert (Hrowlen : Z.of_nat (length row) = n).
  { unfold row. rewrite length_fmap, length_seqZ. lia. }
  assert (Hold : forall k, 0 <= k < i * n -> at_ (B ++ row) k = at_ B k).
  { intros k Hk. apply at_app_l. lia. }
  assert (Hnew : forall j, 0 <= j < n -> at_ (B ++ row) (i * n + j) = raw_vertex i j).
  { intros j Hj. rewrite at_app_r by lia. rewrite Hlen.
    replace (i * n + j - i * n) with j by lia.
    unfold row. apply at_fmap_seqZ. exact Hj. }
  unfold pre_close. rewrite Hemit.
  destruct (0 <? i) eqn:Hpos.
  - apply Z.ltb_lt in Hpos.
    pose proof (correct_row_spec n (track_delta_at track i)
                  (GenState (row_rng river seed (i + 1)) (B ++ row) (g_river_verts st) (g_oob st)))
      as Hcorr.
    simpl in Hcorr. rewrite length_app in Hcorr.
    replace (Z.of_nat (length B + length row)) with ((i + 1) * n) in Hcorr by lia.
    specialize (Hcorr Hn ltac:(nia) Hmod).
    destruct Hcorr as (Hshape & Hoob & Hframe & Hdone).
    set (st2 := correct_row n (track_delta_at track i)
                  (GenState (row_rng river seed (i + 1)) (B ++ row) (g_river_verts st) (g_oob st)))
      in *.
    split; [split |].
    + rewrite (shape_length _ _ Hshape). simpl. rewrite length_app. lia.
    + intros k j Hk Hj. rewrite (shape_tc _ _ Hshape). simpl.
      destruct (Z.eq_dec k i) as [-> | Hne].
      * rewrite Hnew by exact Hj. reflexivity.
      * rewrite Hold by nia. apply Htc; lia.
    + intros j _ Hj. rewrite Hframe by nia. rewrite Hold by nia.
      apply Hfirst; lia.
    + intros k j Hk Hj. destruct (Z.eq_dec k i) as [-> | Hne].
      * replace (i * n + j) with ((i + 1) * n - n + j) by lia.
        rewrite Hdone by exact Hj.
        replace ((i + 1) * n - n + j) with (i * n + j) by lia.
        replace ((i + 1) * n - 2 * n + j) with ((i - 1) * n + j) by lia.
        rewrite Hnew by exact Hj.
        rewrite (Hframe ((i - 1) * n + j)) by nia.
        rewrite (Hold ((i - 1) * n + j)) by nia.
        reflexivity.
      * rewrite (Hframe (k * n + j)) by nia.
        rewrite (Hframe ((k - 1) * n + j)) by nia.
        rewrite (Hold (k * n + j)) by nia.
        rewrite (Hold ((k - 1) * n + j)) by nia.
        apply Hnext; lia.
    + split; [apply (shape_rng _ _ Hshape) |].
      split; [apply (shape_river _ _ Hshape) |].
      split; [exact Hoob |].
      intros k Hk. rewrite Hframe by nia. apply Hold. exact Hk.
  - apply Z.ltb_ge in Hpos. assert (i = 0) by lia. subst i. simpl.
    split; [split |].
    + rewrite length_app. lia.
    + intros k j Hk Hj. assert (k = 0) by lia. subst k.
      rewrite (Hnew j) by exact Hj. reflexivity.
    + intros j _ Hj. replace j with (0 * n + j) at 1 by lia.
      rewrite (Hnew j) by exact Hj. reflexivity.
    + intros k j Hk Hj. lia.
    + split; [reflexivity |]. split; [reflexivity |]. split; [reflexivity |].
      intros k Hk. lia.
Qed.

End Rows.

(** ** The vertex loop *)

Section VertexLoop.
Context `{Ext : Externals}.
Variable river : RiverConfig.
Variable seed : Z.
Variable track : list vec3.
Hypothesis Hvalid : valid_config river.
Hypothesis Hfit : buffers_fit river track.
Hypothesis Hseg : 1 <= Z.of_nat (length track).

Let n := num_contours river.
Let r := SizeT.wrap (river_index river).
Let S := Z.of_nat (length track).

(** The vectors after [i] rounds of the loop of line 130. *)
Definition loop_state (i : Z) : gen_state :=
  for_range i (sample_step river track) (GenState (srand seed) [] [] []).

(** The bank vertices when the last round reaches line 199. *)
Definition bank_before_close : list NormalMappedVertex :=
  g_bank_verts (pre_close river track (S - 1) (loop_state (S - 1))).

Record river_ok (i : Z) (B R : list NormalMappedVertex) : Prop := RiverOk {
  river_length : Z.of_nat (length R) = 2 * i;
  river_left : forall k, 0 <= k < i ->
    at_ R (2 * k) =
    set_tc (at_ B (k * n + r)) (TexCoord (Fin 0) (texture_v_at river S k));
  river_right : forall k, 0 <= k < i ->
    at_ R (2 * k + 1) =
    set_tc (at_ B (k * n + r + 1)) (TexCoord (Fin 1) (texture_v_at river S k))
}.

Lemma n_ge_2 : 2 <= n.
Proof using Hvalid. destruct Hvalid as [Hn _]. exact Hn. Qed.

Lemma sizes_small : S * n * 48 < SizeT.modulus.
Proof using Hfit.
  unfold buffers_fit, sizeof_NormalMappedVertex in Hfit. fold n S in Hfit.
  assert (SizeT.modulus = 2 ^ 64) by reflexivity. lia.
Qed.

Lemma r_eq : r = river_index river.
Proof using Hvalid Hfit Hseg.
  pose proof sizes_small as Hs. pose proof n_ge_2 as Hn.
  destruct Hvalid as [_ Hr]. fold n in Hr. fold S in Hseg.
  unfold r. apply wrap_small. nia.
Qed.

Lemma r_range : 0 <= r /\ r + 1 < n.
Proof using Hvalid Hfit Hseg.
  rewrite r_eq. destruct Hvalid as [_ Hr]. fold n in Hr. lia.
Qed.

Lemma last_sample : SizeT.sub S 1 = S - 1.
Proof using Hvalid Hfit Hseg.
  pose proof sizes_small as Hs. pose proof n_ge_2 as Hn. fold S in Hseg.
  apply sub_small. nia.
Qed.

(** The rounds before the last one. *)
Lemma loop_state_rows i :
  0 <= i <= S - 1 ->
  rows_ok river seed track i (g_bank_verts (loop_state i)) /\
  g_rng (loop_state i) = row_rng river seed i /\
  g_oob (loop_state i) = [] /\
  river_ok i (g_bank_verts (loop_state i)) (g_river_verts (loop_state i)).
Proof using Hvalid Hfit Hseg.
  intros Hi.
  pose proof sizes_small as Hs. pose proof n_ge_2 as Hn.
  pose proof r_range as Hr.
  assert (Hgoal : forall k, 0 <= k -> k <= S - 1 ->
    rows_ok river seed track k (g_bank_verts (loop_state k)) /\
    g_rng (loop_state k) = row_rng river seed k /\
    g_oob (loop_state k) = [] /\
    river_ok k (g_bank_verts (loop_state k)) (g_river_verts (loop_state k))).
  { intros k Hk. pattern k. apply natlike_ind; [ | | exact Hk]; clear k Hk.
    - intros _. unfold loop_state. rewrite for_range_nil by lia. simpl.
      split; [split; simpl; intros; lia |].
      split; [reflexivity |]. split; [reflexivity |].
      split; simpl; intros; lia.
    - intros k Hk IH Hle. specialize (IH ltac:(lia)).
      destruct IH as (Hrows & Hrng & Hoob & Hriv).
      replace (Z.succ k) with (k + 1) by lia.
      unfold loop_state at 1 2 3 4 5. rewrite for_range_succ by exact Hk.
      fold (loop_state k). rewrite sample_step_eq.
      fold n r S. rewrite last_sample.
      replace (k =? S - 1) with false by (symmetry; apply Z.eqb_neq; lia).
      pose proof (pre_close_rows river seed track k (loop_state k) Hk) as Hpre.
      fold n in Hpre. specialize (Hpre ltac:(nia) Hrows Hrng).
      simpl in Hpre.
      set (st' := pre_close river track k (loop_state k)) in *.
      destruct Hpre as (Hrows' & Hrng' & Hriver' & Hoob' & Hprefix).
      pose proof (rows_length _ _ _ _ _ Hrows') as Hlen. fold n in Hlen.
      rewrite emit_river_pair_eq by (rewrite ?Hlen; nia).
      simpl. rewrite Hlen.
      split; [exact Hrows' |]. split; [exact Hrng' |].
      split; [congruence |].
      destruct Hriv as [Rlen Rleft Rright].
      rewrite Hriver'. split.
      + rewrite length_app. simpl. lia.
      + intros j Hj. destruct (Z.eq_dec j k) as [-> | Hne].
        * rewrite at_app_r by lia. rewrite Rlen.
          replace (2 * k - 2 * k) with 0 by lia.
          replace ((k + 1) * n - n + r) with (k * n + r) by lia.
          reflexivity.
        * rewrite at_app_l by lia. rewrite Rleft by lia.
          rewrite Hprefix by nia. reflexivity.
      + intros j Hj. destruct (Z.eq_dec j k) as [-> | Hne].
        * rewrite at_app_r by lia. rewrite Rlen.
          replace (2 * k + 1 - 2 * k) with 1 by lia.
          replace ((k + 1) * n - n + r + 1) with (k * n + r + 1) by lia.
          reflexivity.
        * rewrite at_app_l by lia. rewrite Rright by lia.
          rewrite Hprefix by nia. reflexivity. }
  apply Hgoal; lia.
Qed.

(** The whole loop.  [bank_before_close] are the rows as the corrections of
    line 193 leave them; closing the loop then stores positions at the
    indices from [size - 8] on. *)
Lemma loop_state_final :
  let st := loop_state S in
  let B := g_bank_verts st in
  let R := g_river_verts st in
  rows_ok river seed track S bank_before_close /\
  g_rng st = row_rng river seed S /\
  Z.of_nat (length B) = S * n /\
  (forall k, tc (at_ B k) = tc (at_ bank_before_close k)) /\
  (forall k, 0 <= k < S * n - 8 -> at_ B k = at_ bank_before_close k) /\
  Z.of_nat (length R) = 2 * S /\
  (forall k, 0 <= k < S - 1 ->
     at_ R (2 * k) =
     set_tc (at_ bank_before_close (k * n + r))
            (TexCoord (Fin 0) (texture_v_at river S k)) /\
     at_ R (2 * k + 1) =
     set_tc (at_ bank_before_close (k * n + r + 1))
            (TexCoord (Fin 1) (texture_v_at river S k))) /\
  at_ R (2 * (S - 1)) =
  set_tc (at_ B ((S - 1) * n + r)) (TexCoord (Fin 0) (texture_v_at river S (S - 1))) /\
  at_ R (2 * (S - 1) + 1) =
  set_tc (at_ B ((S - 1) * n + r + 1))
         (TexCoord (Fin 1) (texture_v_at river S (S - 1))).
Proof using Hvalid Hfit Hseg.
  intros st B R. subst st B R.
  pose proof sizes_small as Hs. pose proof n_ge_2 as Hn.
  pose proof r_range as Hr.
  destruct (loop_state_rows (S - 1) ltac:(lia)) as (Hrows & Hrng & Hoob & Hriv).
  assert (Hunfold : loop_state S =
    emit_river_pair n r (texture_v_at river S (S - 1))
      (close_loop n (pre_close river track (S - 1) (loop_state (S - 1))))).
  { unfold loop_state at 1. replace S with (S - 1 + 1) at 1 by lia.
    rewrite for_range_succ by lia. fold (loop_state (S - 1)).
    rewrite sample_step_eq. fold n r S. rewrite last_sample.
    rewrite Z.eqb_refl. reflexivity. }
  pose proof (pre_close_rows river seed track (S - 1) (loop_state (S - 1))
                ltac:(lia)) as Hpre.
  fold n in Hpre. specialize (Hpre ltac:(nia) Hrows Hrng). simpl in Hpre.
  replace (S - 1 + 1) with S in Hpre by lia.
  set (st1 := pre_close river track (S - 1) (loop_state (S - 1))) in *.
  destruct Hpre as (Hrows' & Hrng' & Hriver' & Hoob' & Hprefix).
  pose proof (rows_length _ _ _ _ _ Hrows') as Hlen. fold n in Hlen.
  pose proof (close_loop_spec n st1 ltac:(lia)) as Hclose. simpl in Hclose.
  rewrite Hlen in Hclose. specialize (Hclose ltac:(nia)).
  set (st2 := close_loop n st1) in *.
  destruct Hclose as (Hshape & Hframe).
  assert (Hlen2 : Z.of_nat (length (g_bank_verts st2)) = S * n).
  { rewrite (shape_length _ _ Hshape). exact Hlen. }
  rewrite Hunfold.
  rewrite emit_river_pair_eq by (rewrite ?Hlen2; nia).
  simpl. rewrite Hlen2.
  destruct Hriv as [Rlen Rleft Rright].
  unfold bank_before_close. fold st1.
  split; [exact Hrows' |].
  split; [rewrite (shape_rng _ _ Hshape); exact Hrng' |].
  split; [reflexivity |].
  split; [intros k; apply (shape_tc _ _ Hshape) |].
  split; [exact Hframe |].
  rewrite (shape_river _ _ Hshape). rewrite Hriver'.
  split; [rewrite length_app; simpl; lia |].
  split.
  { intros k Hk. rewrite !at_app_l by lia.
    rewrite Rleft, Rright by lia. rewrite !Hprefix by nia. split; reflexivity. }
  split.
  - rewrite at_app_r by lia. rewrite Rlen.
    replace (2 * (S - 1) - 2 * (S - 1)) with 0 by lia.
    replace (S * n - n + r) with ((S - 1) * n + r) by lia. reflexivity.
  - rewrite at_app_r by lia. rewrite Rlen.
    replace (2 * (S - 1) + 1 - 2 * (S - 1)) with 1 by lia.
    replace (S * n - n + r + 1) with ((S - 1) * n + r + 1) by lia. reflexivity.
Qed.

End VertexLoop.

(** ** The index loop *)

Lemma to_ushort_to_int a b c :
  to_ushort (to_int a + to_int b + c) = to_ushort (a + b + c).
Proof.
  unfold to_ushort, to_int.
  pose proof (Z.div_mod (a + 2 ^ 31) (2 ^ 32) ltac:(lia)) as Ha.
  pose proof (Z.div_mod (b + 2 ^ 31) (2 ^ 32) ltac:(lia)) as Hb.
  set (qa := (a + 2 ^ 31) / 2 ^ 32) in *.
  set (qb := (b + 2 ^ 31) / 2 ^ 32) in *.
  replace ((a + 2 ^ 31) mod 2 ^ 32 - 2 ^ 31 + ((b + 2 ^ 31) mod 2 ^ 32 - 2 ^ 31) + c)
    with (a + b + c + (- (qa + qb) * 2 ^ 16) * 2 ^ 16) by lia.
  apply Z_mod_plus_full.
Qed.

Lemma make_quad_eq indices base_index off1 off2 :
  make_quad indices base_index off1 off2 =
  indices ++ (to_ushort <$> quad_triangles (base_index + off1) (off2 - off1)).
Proof.
  unfold make_quad, quad_triangles. f_equal. simpl.
  pose proof (to_ushort_to_int base_index off1 0) as H0.
  pose proof (to_ushort_to_int base_index off1 1) as H1.
  pose proof (to_ushort_to_int base_index off2 0) as H2.
  pose proof (to_ushort_to_int base_index off2 1) as H3.
  rewrite !Z.add_0_r in H0, H2.
  rewrite H0, H1, H2, H3.
  replace (base_index + off1 + (off2 - off1)) with (base_index + off2) by lia.
  reflexivity.
Qed.

Lemma bank_quads_loop n q r i bank_indices :
  0 <= q + 1 -> 0 <= i -> i * n < SizeT.modulus -> n + q < SizeT.modulus -> 0 <= n ->
  for_range (q + 1)
    (fun j bank_indices =>
       if j =? r then bank_indices
       else make_quad bank_indices (SizeT.mul i n) j (SizeT.add n j))
    bank_indices =
  bank_indices ++
  (to_ushort <$>
     (j ← filter (fun j => j <> r) (seqZ 0 (q + 1)); quad_triangles (i * n + j) n)).
Proof.
  intros Hq Hi Hin Hnq Hn.
  apply (for_range_invariant
    (fun k s =>
       s = bank_indices ++
           (to_ushort <$>
              (j ← filter (fun j => j <> r) (seqZ 0 k); quad_triangles (i * n + j) n)))).
  - exact Hq.
  - simpl. rewrite app_nil_r. reflexivity.
  - intros k s Hk ->.
    rewrite seqZ_snoc by lia. rewrite filter_app, bind_app, fmap_app, app_assoc.
    destruct (k =? r) eqn:Hkr.
    + apply Z.eqb_eq in Hkr. rewrite filter_cons_False by (intros Hne; apply Hne; exact Hkr).
      rewrite filter_nil. simpl. rewrite ?app_nil_r. reflexivity.
    + apply Z.eqb_neq in Hkr. rewrite filter_cons_True by exact Hkr.
      rewrite filter_nil. rewrite bind_cons. simpl. rewrite ?app_nil_r.
      rewrite make_quad_eq.
      rewrite mul_small by nia. rewrite add_small by lia.
      replace (n + k - k) with n by lia. reflexivity.
Qed.

Lemma index_loop n r count :
  0 <= count -> 2 <= n -> count * n < SizeT.modulus -> 2 * n < SizeT.modulus ->
  for_range count (index_step n (SizeT.sub n 2) r) ([], []) =
  (to_ushort <$> spec_river_indices (count + 1),
   to_ushort <$> spec_bank_indices n r (count + 1)).
Proof.
  intros Hc Hn Hmod Hmod2.
  assert (Hmodv : SizeT.modulus = 2 ^ 64) by reflexivity.
  unfold spec_river_indices, spec_bank_indices, bank_quads, contour_pairs.
  replace (count + 1 - 1) with count by lia.
  apply (for_range_invariant
    (fun k s =>
       s = (to_ushort <$> (i ← seqZ 0 k; quad_triangles (2 * i) 2),
            to_ushort <$>
              (q ← (i ← seqZ 0 k;
                    j ← filter (fun j => j <> r) (seqZ 0 (n - 1)); [(i, j)]);
               quad_triangles (fst q * n + snd q) n)))).
  - exact Hc.
  - reflexivity.
  - intros k s Hk ->. unfold index_step. cbn [fst snd].
    rewrite make_quad_eq. rewrite mul_small by nia.
    rewrite sub_small by nia.
    rewrite (bank_quads_loop n (n - 2) r k) by nia.
    replace (n - 2 + 1) with (n - 1) by lia.
    rewrite seqZ_snoc by lia. rewrite !bind_app, !fmap_app.
    f_equal.
    + f_equal. rewrite bind_cons. simpl. rewrite Z.add_0_r. reflexivity.
    + f_equal. f_equal. rewrite bind_cons. simpl. rewrite app_nil_r.
      generalize (filter (fun j => j <> r) (seqZ 0 (n - 1))). intros l.
      induction l as [| j l IH]; [reflexivity |].
      rewrite !bind_cons. simpl. rewrite IH. reflexivity.
Qed.

Lemma length_bind_const {A B : Type} (f : A -> list B) (c : nat) (l : list A) :
  (forall x, length (f x) = c) -> length (l ≫= f) = (length l * c)%nat.
Proof.
  intros Hf. induction l as [| x l IH]; [reflexivity |].
  rewrite bind_cons, length_app, IH, Hf. simpl. lia.
Qed.

Lemma length_contour_pairs n r :
  0 <= r < n - 1 -> Z.of_nat (length (contour_pairs n r)) = n - 2.
Proof.
  intros Hr. unfold contour_pairs.
  assert (Hall : forall m, 0 <= m ->
    Z.of_nat (length (filter (fun j => j <> r) (seqZ 0 m))) =
    m - (if r <? m then 1 else 0)).
  { intros m Hm. pattern m. apply natlike_ind; [ | | exact Hm]; clear m Hm.
    - simpl. destruct (r <? 0) eqn:E; [apply Z.ltb_lt in E; lia | reflexivity].
    - intros m Hm IH. replace (Z.succ m) with (m + 1) by lia.
      rewrite seqZ_snoc by exact Hm. rewrite filter_app, length_app.
      rewrite Nat2Z.inj_add, IH.
      destruct (Z.eq_dec m r) as [-> | Hne].
      + rewrite filter_cons_False by (intros Hne; apply Hne; reflexivity).
        rewrite filter_nil. simpl.
        rewrite Z.ltb_irrefl.
        replace (r <? r + 1) with true by (symmetry; apply Z.ltb_lt; lia). lia.
      + rewrite filter_cons_True by exact Hne. rewrite filter_nil. simpl.
        destruct (r <? m) eqn:E1; destruct (r <? m + 1) eqn:E2;
          rewrite ?Z.ltb_lt, ?Z.ltb_ge in E1, E2; lia. }
  rewrite Hall by lia.
  replace (r <? n - 1) with true by (symmetry; apply Z.ltb_lt; lia). lia.
Qed.

Lemma length_spec_river_indices S :
  1 <= S -> Z.of_nat (length (spec_river_indices S)) = 6 * (S - 1).
Proof.
  intros HS. unfold spec_river_indices.
  rewrite (length_bind_const _ 6) by reflexivity.
  rewrite length_seqZ. lia.
Qed.

Lemma length_bank_quads n r S :
  1 <= S -> 0 <= r < n - 1 ->
  Z.of_nat (length (bank_quads n r S)) = (S - 1) * (n - 2).
Proof.
  intros HS Hr. unfold bank_quads.
  rewrite (length_bind_const _ (Z.to_nat (n - 2))).
  - rewrite length_seqZ. nia.
  - intros i. rewrite (length_bind_const _ 1) by reflexivity.
    pose proof (length_contour_pairs n r Hr). lia.
Qed.

Lemma length_spec_bank_indices n r S :
  1 <= S -> 0 <= r < n - 1 ->
  Z.of_nat (length (spec_bank_indices n r S)) = 6 * (S - 1) * (n - 2).
Proof.
  intros HS Hr. unfold spec_bank_indices.
  rewrite (length_bind_const _ 6) by reflexivity.
  pose proof (length_bank_quads n r S HS Hr). nia.
Qed.

Lemma elem_of_bank_quads n r S i j :
  (i, j) ∈ bank_quads n r S <-> 0 <= i < S - 1 /\ 0 <= j < n - 1 /\ j <> r.
Proof.
  unfold bank_quads, contour_pairs. rewrite list_elem_of_bind. split.
  - intros (i' & Hin & Hi'). apply list_elem_of_bind in Hin.
    destruct Hin as (j' & Hin & Hj'). apply list_elem_of_singleton in Hin.
    inversion Hin; subst i' j'.
    apply list_elem_of_filter in Hj'. destruct Hj' as [Hne Hj'].
    apply elem_of_seqZ in Hi'. apply elem_of_seqZ in Hj'. lia.
  - intros (Hi & Hj & Hne). exists i. split.
    + apply list_elem_of_bind. exists j. split.
      * apply list_elem_of_singleton. reflexivity.
      * apply list_elem_of_filter. split; [exact Hne |]. apply elem_of_seqZ. lia.
    + apply elem_of_seqZ. lia.
Qed.

(** ** The last round of the vertex loop *)

Section LastRound.
Context `{Ext : Externals}.
Variable river : RiverConfig.
Variable seed : Z.
Variable track : list vec3.
Hypothesis Hvalid : valid_config river.
Hypothesis Hfit : buffers_fit river track.
Hypothesis Hseg : 1 <= Z.of_nat (length track).

Let n := num_contours river.
Let S := Z.of_nat (length track).

(** The state when the last round reaches line 199. *)
Definition before_close : gen_state :=
  pre_close river track (S - 1) (loop_state river seed track (S - 1)).

Lemma loop_state_last :
  loop_state river seed track S =
  emit_river_pair n (SizeT.wrap (river_index river)) (texture_v_at river S (S - 1))
                  (close_loop n before_close) /\
  rows_ok river seed track S (g_bank_verts before_close) /\
  g_oob before_close = [] /\
  g_rng before_close = row_rng river seed S.
Proof using Hvalid Hfit Hseg.
  pose proof (sizes_small river track Hfit) as Hs. fold n S in Hs.
  pose proof (n_ge_2 river Hvalid) as Hn. fold n in Hn.
  fold S in Hseg.
  destruct (loop_state_rows river seed track Hvalid Hfit Hseg (S - 1) ltac:(lia))
    as (Hrows & Hrng & Hoob & _).
  pose proof (pre_close_rows river seed track (S - 1)
                (loop_state river seed track (S - 1)) ltac:(lia)) as Hpre.
  fold n in Hpre. specialize (Hpre ltac:(nia) Hrows Hrng). cbv zeta in Hpre.
  replace (S - 1 + 1) with S in Hpre by lia.
  fold before_close in Hpre.
  destruct Hpre as (Hrows' & Hrng' & _ & Hoob' & _).
  split.
  - unfold loop_state at 1. replace S with (S - 1 + 1) at 1 by lia.
    rewrite for_range_succ by lia. fold (loop_state river seed track (S - 1)).
    rewrite sample_step_eq.
    rewrite (last_sample river track Hvalid Hfit Hseg). fold n S.
    rewrite Z.eqb_refl. reflexivity.
  - split; [exact Hrows' |]. split; [congruence | exact Hrng'].
Qed.

End LastRound.

(** ** Stores outside the bank vertex buffer *)

(** The index line 201 stores to is inside a buffer of [size] vertices exactly
    when [j < 8] and [8 <= size + j]. *)
Lemma close_index_inside size j :
  0 <= j -> 0 <= size -> size + j < SizeT.modulus ->
  (SizeT.sub size (SizeT.sub 8 j) < size <-> j < 8 /\ 8 <= size + j).
Proof.
  intros Hj Hsize Hmod.
  assert (Hmodv : SizeT.modulus = 2 ^ 64) by reflexivity.
  destruct (Z_le_gt_dec j 8) as [Hle | Hgt].
  - rewrite (sub_small 8 j) by lia.
    destruct (Z_le_gt_dec 0 (size - (8 - j))) as [Hpos | Hneg].
    + rewrite sub_small by lia. lia.
    + rewrite sub_borrow by lia. lia.
  - rewrite (sub_borrow 8 j) by lia.
    rewrite sub_borrow by lia. lia.
Qed.

Lemma filter_nil_iff {A : Type} (P : A -> Prop) `{forall x, Decision (P x)} (l : list A) :
  filter P l = [] <-> forall x, x ∈ l -> ~ P x.
Proof.
  split.
  - intros Hnil x Hx HP.
    assert (Hin : x ∈ filter P l) by (apply list_elem_of_filter; auto).
    rewrite Hnil in Hin. apply elem_of_nil in Hin. exact Hin.
  - intros Hall. induction l as [| a l IH]; [reflexivity |].
    rewrite filter_cons_False by (apply Hall; left).
    apply IH. intros x Hx. apply Hall. right. exact Hx.
Qed.

Section OutOfBounds.
Context `{Ext : Externals}.

(** The stores of lines 199-202 that fall outside the buffer, in order. *)
Lemma close_loop_oob n (st : gen_state) :
  let size := Z.of_nat (length (g_bank_verts st)) in
  0 <= n -> size + n < SizeT.modulus ->
  g_oob (close_loop n st) =
  g_oob st ++
  filter (fun i => size <= i)
         ((fun j => SizeT.sub size (SizeT.sub 8 j)) <$> seqZ 0 n).
Proof.
  intros size Hn Hmod. unfold close_loop.
  set (P := fun (m : Z) (s : gen_state) =>
    same_shape st s /\
    g_oob s = g_oob st ++
              filter (fun i => size <= i)
                     ((fun j => SizeT.sub size (SizeT.sub 8 j)) <$> seqZ 0 m)).
  assert (HP : P n (for_range n close_loop_vertex st)).
  { apply for_range_invariant.
    - exact Hn.
    - split; [apply same_shape_refl |]. simpl. rewrite app_nil_r. reflexivity.
    - intros m s Hm (Hshape & Hoob).
      assert (Hlen : Z.of_nat (length (g_bank_verts s)) = size).
      { unfold size. rewrite (shape_length _ _ Hshape). reflexivity. }
      unfold close_loop_vertex. rewrite Hlen.
      set (idx := SizeT.sub size (SizeT.sub 8 m)).
      assert (Hidx0 : 0 <= idx) by apply wrap_range.
      split.
      + eapply same_shape_trans; [exact Hshape | apply store_pos_shape; exact Hidx0].
      + rewrite seqZ_snoc by lia. rewrite fmap_app, filter_app. simpl. fold idx.
        destruct (Z_lt_ge_dec idx size) as [Hin | Hout].
        * rewrite store_pos_oob_in by lia.
          rewrite filter_cons_False by lia. rewrite filter_nil, app_nil_r.
          exact Hoob.
        * rewrite store_pos_out by lia. simpl.
          rewrite filter_cons_True by lia. rewrite filter_nil.
          rewrite Hoob, app_assoc. reflexivity. }
  destruct HP as [_ Hoob]. exact Hoob.
Qed.

End OutOfBounds.

(** ** [generate] runs to its end *)

Lemma assert_true {A : Type} b site (k : unit -> outcome A) :
  b = true -> (assert b site ≫= k) = k tt.
Proof. intros ->. reflexivity. Qed.

Lemma assert_false {A : Type} b site (k : unit -> outcome A) :
  b = false -> (assert b site ≫= k) = AssertionFailed site.
Proof. intros ->. reflexivity. Qed.

Lemma vector_alloc_ok {A : Type} n elem_size (k : unit -> outcome A) :
  0 < elem_size -> elem_size * n <= 2 ^ 63 - 1 ->
  (vector_alloc n elem_size ≫= k) = k tt.
Proof.
  intros Hpos Hle. unfold vector_alloc.
  replace (n <=? (2 ^ 63 - 1) / elem_size) with true; [reflexivity |].
  symmetry. apply Z.leb_le. apply Z.div_le_lower_bound; assumption.
Qed.

Section Generate.
Context `{Ext : Externals}.
Variable river : RiverConfig.
Variable seed : Z.
Variable track : list vec3.
Hypothesis Hvalid : valid_config river.
Hypothesis Hfit : buffers_fit river track.
Hypothesis Hseg : 1 <= Z.of_nat (length track).

Let n := num_contours river.
Let S := Z.of_nat (length track).

(** The buffers [generate] returns. *)
Definition generated_buffers : buffers :=
  let st := loop_state river seed track S in
  let bank_indices := to_ushort <$> spec_bank_indices n (river_index river) S in
  Buffers (g_river_verts st)
          (to_ushort <$> spec_river_indices S)
          (with_normals_tangents (g_bank_verts st) bank_indices)
          bank_indices
          (g_oob st).

(** The stores of line 201 that fall outside the bank vertex buffer, in
    order. *)
Definition stray_stores : list Z :=
  filter (fun i => S * n <= i)
         ((fun j => SizeT.sub (S * n) (SizeT.sub 8 j)) <$> seqZ 0 n).

Lemma loop_state_oob : g_oob (loop_state river seed track S) = stray_stores.
Proof using Hvalid Hfit Hseg.
  pose proof (sizes_small river track Hfit) as Hs. fold n S in Hs.
  pose proof (n_ge_2 river Hvalid) as Hn. fold n in Hn.
  pose proof (r_range river track Hvalid Hfit Hseg) as Hr. fold n in Hr.
  assert (Hmodv : SizeT.modulus = 2 ^ 64) by reflexivity.
  fold S in Hseg.
  destruct (loop_state_last river seed track Hvalid Hfit Hseg)
    as (Hlast & Hrows & Hoob & _).
  fold n S in Hlast, Hrows.
  pose proof (rows_length _ _ _ _ _ Hrows) as Hlen. fold n in Hlen.
  pose proof (close_loop_oob n (before_close river seed track) ltac:(lia)) as Hcl.
  cbv zeta in Hcl. rewrite Hlen in Hcl. specialize (Hcl ltac:(nia)).
  pose proof (close_loop_spec n (before_close river seed track) ltac:(lia)) as Hsp.
  cbv zeta in Hsp. rewrite Hlen in Hsp. specialize (Hsp ltac:(nia)).
  destruct Hsp as [Hshape _].
  assert (Hlen2 : Z.of_nat (length (g_bank_verts
                    (close_loop n (before_close river seed track)))) = S * n).
  { rewrite (shape_length _ _ Hshape). exact Hlen. }
  rewrite Hlast. rewrite emit_river_pair_eq by (rewrite ?Hlen2; nia).
  cbn [g_oob]. rewrite Hcl, Hoob. reflexivity.
Qed.

(** Every store of line 201 is inside the buffer exactly when there are at
    most eight contours and at least eight bank vertices. *)
Lemma stray_stores_nil : stray_stores = [] <-> n <= 8 /\ 8 <= S * n.
Proof using Hvalid Hfit Hseg.
  pose proof (sizes_small river track Hfit) as Hs. fold n S in Hs.
  pose proof (n_ge_2 river Hvalid) as Hn. fold n in Hn.
  assert (Hmodv : SizeT.modulus = 2 ^ 64) by reflexivity.
  fold S in Hseg.
  unfold stray_stores. rewrite filter_nil_iff. split.
  - intros Hall.
    assert (H0 : SizeT.sub (S * n) (SizeT.sub 8 0) < S * n).
    { apply Z.nle_gt. apply Hall. apply list_elem_of_fmap. exists 0.
      split; [reflexivity |]. apply elem_of_seqZ. lia. }
    assert (H1 : SizeT.sub (S * n) (SizeT.sub 8 (n - 1)) < S * n).
    { apply Z.nle_gt. apply Hall. apply list_elem_of_fmap. exists (n - 1).
      split; [reflexivity |]. apply elem_of_seqZ. lia. }
    apply close_index_inside in H0; [| lia | nia | nia].
    apply close_index_inside in H1; [| lia | nia | nia].
    lia.
  - intros [Hn8 Hsize] x Hx. apply list_elem_of_fmap in Hx.
    destruct Hx as (j & -> & Hj). apply elem_of_seqZ in Hj.
    apply Z.nle_gt. apply close_index_inside; [lia | nia | nia | lia].
Qed.

Lemma stray_stores_outside i : i ∈ stray_stores -> S * n <= i.
Proof. unfold stray_stores. intros Hi. apply list_elem_of_filter in Hi. tauto. Qed.

(** The call: undefined from the first store outside the buffer on, and
    otherwise run to its end through every assertion. *)
Lemma generate_eq g0 :
  generate river seed track g0 =
  match stray_stores with
  | [] => Done (generated_buffers, row_rng river seed S)
  | i :: _ => OutOfBounds i
  end.
Proof using Hvalid Hfit Hseg.
  pose proof (sizes_small river track Hfit) as Hs. fold n S in Hs.
  pose proof (n_ge_2 river Hvalid) as Hn. fold n in Hn.
  pose proof (r_eq river track Hvalid Hfit Hseg) as Hr.
  pose proof (r_range river track Hvalid Hfit Hseg) as Hrr. rewrite Hr in Hrr.
  fold n in Hrr.
  assert (Hmodv : SizeT.modulus = 2 ^ 64) by reflexivity.
  pose proof (loop_state_final river seed track Hvalid Hfit Hseg) as Hfinal.
  simpl in Hfinal. fold n S in Hfinal.
  destruct Hfinal as (_ & Hrng & Hblen & _ & _ & Hrlen & _).
  pose proof loop_state_oob as Hoob.
  fold S in Hseg.
  unfold buffers_fit, sizeof_NormalMappedVertex in Hfit. fold n S in Hfit.
  unfold generate, generate_indices.
  change (Z.of_nat (length (banks river))) with n.
  change (Z.of_nat (length track)) with S.
  rewrite Hr.
  unfold kNumIndicesPerQuad, sizeof_NormalMappedVertex, sizeof_ushort.
  rewrite (sub_small n 1) by lia.
  rewrite (sub_small n 2) by lia.
  rewrite (sub_small S 1) by nia.
  rewrite (mul_small S 2) by nia.
  rewrite (mul_small (S - 1) 6) by nia.
  rewrite (mul_small S n) by nia.
  rewrite (mul_small _ (n - 2)) by nia.
  rewrite assert_true
    by (apply andb_true_intro; split; [apply Z.leb_le | apply Z.ltb_lt]; lia).
  rewrite !vector_alloc_ok by nia.
  fold (loop_state river seed track S).
  rewrite <- Hoob.
  destruct (g_oob (loop_state river seed track S)) as [| i rest] eqn:Hnone;
    [| reflexivity].
  cbn [defined_stores mbind outcome_bind].
  pose proof (index_loop n (river_index river) (S - 1)) as Hix.
  rewrite (sub_small n 2) in Hix by lia.
  replace (S - 1 + 1) with S in Hix by lia.
  rewrite Hix by nia. cbn [fst snd].
  rewrite assert_true
    by (apply Z.eqb_eq; rewrite length_fmap, length_spec_river_indices; lia).
  rewrite assert_true by (apply Z.eqb_eq; lia).
  rewrite assert_true
    by (apply Z.eqb_eq; rewrite length_fmap, length_spec_bank_indices; lia).
  rewrite assert_true by (apply Z.eqb_eq; lia).
  unfold generated_buffers. fold n S. rewrite Hrng, Hnone. reflexivity.
Qed.

Lemma generate_done (Hcontours : num_contours river <= 8)
    (Hverts : 8 <= Z.of_nat (length track) * num_contours river) g0 :
  generate river seed track g0 =
  Done (generated_buffers, row_rng river seed S).
Proof using Hvalid Hfit Hseg.
  rewrite generate_eq.
  rewrite (proj2 stray_stores_nil) by (split; assumption). reflexivity.
Qed.

Lemma generate_out_of_bounds g0 :
  ~ (num_contours river <= 8 /\ 8 <= Z.of_nat (length track) * num_contours river) ->
  exists i, generate river seed track g0 = OutOfBounds i /\
            Z.of_nat (length track) * num_contours river <= i.
Proof using Hvalid Hfit Hseg.
  intros Hout. rewrite generate_eq.
  destruct stray_stores as [| i rest] eqn:Hstray.
  - exfalso. apply Hout. apply stray_stores_nil. exact Hstray.
  - exists i. split; [reflexivity |].
    apply stray_stores_outside. rewrite Hstray. apply elem_of_cons. left. reflexivity.
Qed.

End Generate.

Lemma quad_triangles_range base stride x :
  0 <= stride -> x ∈ quad_triangles base stride -> base <= x <= base + stride + 1.
Proof.
  intros Hs Hx. unfold quad_triangles in Hx.
  repeat (apply elem_of_cons in Hx as [-> | Hx]; [lia |]).
  apply elem_of_nil in Hx. contradiction.
Qed.

Lemma fmap_to_ushort_id (l : list Z) :
  Forall (fun x => 0 <= x < 2 ^ 16) l -> to_ushort <$> l = l.
Proof.
  intros Hl. induction Hl as [| x l Hx Hl IH]; [reflexivity |].
  rewrite fmap_cons, IH. f_equal. unfold to_ushort. apply Z.mod_small. exact Hx.
Qed.

Lemma spec_river_indices_ushort S :
  2 * S <= 2 ^ 16 -> to_ushort <$> spec_river_indices S = spec_river_indices S.
Proof.
  intros HS. apply fmap_to_ushort_id. apply Forall_forall. intros x Hx.
  unfold spec_river_indices in Hx. apply list_elem_of_bind in Hx.
  destruct Hx as (i & Hx & Hi). apply elem_of_seqZ in Hi.
  apply quad_triangles_range in Hx; lia.
Qed.

Lemma spec_bank_indices_ushort n r S :
  0 <= n -> S * n <= 2 ^ 16 ->
  to_ushort <$> spec_bank_indices n r S = spec_bank_indices n r S.
Proof.
  intros Hn HS. apply fmap_to_ushort_id. apply Forall_forall. intros x Hx.
  unfold spec_bank_indices in Hx. apply list_elem_of_bind in Hx.
  destruct Hx as ([i j] & Hx & Hq). apply elem_of_bank_quads in Hq.
  simpl in Hx. apply quad_triangles_range in Hx; [nia | lia].
Qed.

(** ** Positions and texture coordinates of the generated bank *)

Lemma with_normals_tangents_at `{Ext : Externals} verts indices k :
  pos (at_ (with_normals_tangents verts indices) k) = pos (at_ verts k) /\
  tc (at_ (with_normals_tangents verts indices) k) = tc (at_ verts k).
Proof.
  unfold with_normals_tangents, at_.
  destruct (decide (Z.to_nat k < length verts)%nat) as [Hlt | Hge].
  - rewrite !list_lookup_total_alt, list_lookup_imap.
    destruct (lookup_lt_is_Some_2 verts (Z.to_nat k) Hlt) as [v Hv].
    rewrite Hv. simpl.
    destruct (ComputeNormalsTangents verts indices !! Z.to_nat k); split; reflexivity.
  - rewrite !list_lookup_total_alt.
    rewrite (lookup_ge_None_2 verts) by lia.
    rewrite lookup_ge_None_2 by (rewrite length_imap; lia).
    split; reflexivity.
Qed.

(** ** The texture coordinate U *)






(** ** Closing the loop *)

Section CloseLoop8.
Context `{Ext : Externals}.

(** With eight contours, line 201 stores to the last row, and closes the loop. *)
Lemma close_loop_spec_8 n (st : gen_state) :
  let B := g_bank_verts st in
  let size := Z.of_nat (length B) in
  n = 8 -> 16 <= size -> size < SizeT.modulus ->
  let st' := close_loop n st in
  same_shape st st' /\
  g_oob st' = g_oob st /\
  (forall k, 0 <= k < size - 8 -> at_ (g_bank_verts st') k = at_ B k) /\
  (forall j, 0 <= j < 8 ->
     pos (at_ (g_bank_verts st') (size - 8 + j)) = pos (at_ B j)).
Proof.
  intros B size Hn8 Hsize Hmod st'. subst st'. unfold close_loop.
  assert (Hmodv : SizeT.modulus = 2 ^ 64) by reflexivity.
  set (P := fun (m : Z) (s : gen_state) =>
    same_shape st s /\
    g_oob s = g_oob st /\
    (forall k, 0 <= k -> k < size - 8 \/ size - 8 + m <= k ->
       at_ (g_bank_verts s) k = at_ B k) /\
    (forall j, 0 <= j < m ->
       pos (at_ (g_bank_verts s) (size - 8 + j)) = pos (at_ B j))).
  assert (HP : P n (for_range n close_loop_vertex st)).
  { apply for_range_invariant.
    - lia.
    - unfold P. split; [apply same_shape_refl |]. split; [reflexivity |].
      split; [reflexivity |]. intros j Hj. lia.
    - intros m s Hm (Hshape & Hoob & Hframe & Hdone).
      assert (Hlen : Z.of_nat (length (g_bank_verts s)) = size).
      { unfold size, B. rewrite (shape_length _ _ Hshape). reflexivity. }
      unfold close_loop_vertex. rewrite Hlen.
      rewrite (sub_small 8 m) by lia.
      rewrite (sub_small size (8 - m)) by lia.
      rewrite (Hframe m) by lia.
      unfold P. split.
      { eapply same_shape_trans; [exact Hshape | apply store_pos_shape; lia]. }
      split.
      { rewrite store_pos_oob_in by lia. exact Hoob. }
      split.
      { intros k Hk Hcase. rewrite store_pos_other by lia. apply Hframe; lia. }
      intros j Hj. destruct (Z.eq_dec j m) as [-> | Hne].
      + replace (size - 8 + m) with (size - (8 - m)) by lia.
        rewrite store_pos_same by lia. reflexivity.
      + rewrite store_pos_other by lia. apply Hdone. lia. }
  destruct HP as (Hshape & Hoob & Hframe & Hdone).
  split; [exact Hshape |]. split; [exact Hoob |]. split.
  - intros k Hk. apply Hframe; lia.
  - intros j Hj. apply Hdone. lia.
Qed.

Variable river : RiverConfig.
Variable seed : Z.
Variable track : list vec3.
Hypothesis Hvalid : valid_config river.
Hypothesis Hfit : buffers_fit river track.
Hypothesis Hseg : 2 <= Z.of_nat (length track).
Hypothesis Height : num_contours river = 8.

Let S := Z.of_nat (length track).

(** With eight contours the generated bank is closed: its last row has the
    positions of its first row, and no store falls outside the buffer. *)
Lemma loop_closed_8 :
  let b := generated_buffers river seed track in
  oob_stores b = [] /\
  forall j, 0 <= j < 8 ->
    pos (at_ (bank_verts b) ((S - 1) * 8 + j)) = pos (at_ (bank_verts b) j).
Proof using Hvalid Hfit Hseg Height.
  assert (Hseg1 : 1 <= Z.of_nat (length track)) by lia.
  set (n := num_contours river) in *.
  pose proof (sizes_small river track Hfit) as Hs. fold S n in Hs.
  pose proof (r_range river track Hvalid Hfit Hseg1) as Hr. fold n in Hr.
  fold S in Hseg, Hseg1.
  assert (Hmodv : SizeT.modulus = 2 ^ 64) by reflexivity.
  destruct (loop_state_rows river seed track Hvalid Hfit Hseg1 (S - 1) ltac:(lia))
    as (Hrows & Hrng & Hoob & _).
  pose proof (pre_close_rows river seed track (S - 1)
                (loop_state river seed track (S - 1)) ltac:(lia)) as Hpre.
  fold n in Hpre. specialize (Hpre ltac:(lia) Hrows Hrng). cbv zeta in Hpre.
  replace (S - 1 + 1) with S in Hpre by lia.
  set (st1 := pre_close river track (S - 1) (loop_state river seed track (S - 1))) in *.
  destruct Hpre as (Hrows' & _ & _ & Hoob' & _).
  pose proof (rows_length _ _ _ _ _ Hrows') as Hlen. fold n in Hlen.
  pose proof (close_loop_spec_8 n st1) as Hclose. cbv zeta in Hclose.
  rewrite Hlen in Hclose. specialize (Hclose Height ltac:(lia) ltac:(lia)).
  destruct Hclose as (Hshape & Hoob2 & Hframe & Hclosed).
  assert (Hunfold : loop_state river seed track S =
    emit_river_pair n (SizeT.wrap (river_index river))
      (texture_v_at river S (S - 1)) (close_loop n st1)).
  { unfold loop_state at 1. replace S with (S - 1 + 1) at 1 by lia.
    rewrite for_range_succ by lia. fold (loop_state river seed track (S - 1)).
    rewrite sample_step_eq.
    rewrite (last_sample river track Hvalid Hfit Hseg1). fold n S.
    rewrite Z.eqb_refl. reflexivity. }
  assert (Hlen2 : Z.of_nat (length (g_bank_verts (close_loop n st1))) = S * n).
  { rewrite (shape_length _ _ Hshape). exact Hlen. }
  assert (Hbank : g_bank_verts (loop_state river seed track S) =
                  g_bank_verts (close_loop n st1)).
  { rewrite Hunfold. rewrite emit_river_pair_eq by (rewrite ?Hlen2; lia). reflexivity. }
  assert (Hoobs : g_oob (loop_state river seed track S) = []).
  { rewrite Hunfold. rewrite emit_river_pair_eq by (rewrite ?Hlen2; lia). simpl.
    rewrite Hoob2, Hoob'. exact Hoob. }
  unfold generated_buffers. cbn [oob_stores bank_verts]. fold S.
  split; [exact Hoobs |].
  intros j Hj.
  rewrite !(proj1 (with_normals_tangents_at _ _ _)).
  rewrite Hbank.
  replace ((S - 1) * 8 + j) with (S * n - 8 + j) by lia.
  rewrite (Hclosed j Hj). rewrite (Hframe j) by lia. reflexivity.
Qed.

End CloseLoop8.

(** ** The river vertices *)

Section RiverEdge.
Context `{Ext : Externals}.
Variable river : RiverConfig.
Variable seed : Z.
Variable track : list vec3.
Hypothesis Hvalid : valid_config river.
Hypothesis Hfit : buffers_fit river track.
Hypothesis Hseg : 1 <= Z.of_nat (length track).

Let n := num_contours river.
Let r := river_index river.
Let S := Z.of_nat (length track).

(** The two river vertices of a row carry [(0, V)] and [(1, V)]; they have the
    positions of the bank vertices at [river_index] and [river_index + 1] of
    the row when the row is the last one, or lies below the slots that
    closing the loop stores to. *)
Lemma river_vertices k :
  0 <= k < S ->
  let b := generated_buffers river seed track in
  tc (at_ (river_verts b) (2 * k)) = TexCoord (Fin 0) (texture_v_at river S k) /\
  tc (at_ (river_verts b) (2 * k + 1)) = TexCoord (Fin 1) (texture_v_at river S k) /\
  (k = S - 1 \/ k * n + r + 1 < S * n - 8 ->
   pos (at_ (river_verts b) (2 * k)) = pos (at_ (bank_verts b) (k * n + r)) /\
   pos (at_ (river_verts b) (2 * k + 1)) = pos (at_ (bank_verts b) (k * n + r + 1))).
Proof using Hvalid Hfit Hseg.
  intros Hk b. subst b.
  pose proof (r_eq river track Hvalid Hfit Hseg) as Hreq.
  pose proof (r_range river track Hvalid Hfit Hseg) as Hr. rewrite Hreq in Hr.
  fold n r in Hr.
  pose proof (loop_state_final river seed track Hvalid Hfit Hseg) as Hfinal.
  cbv zeta in Hfinal. rewrite Hreq in Hfinal. fold n r S in Hfinal.
  destruct Hfinal as (_ & _ & _ & _ & Hframe & _ & Hbefore & Hlast0 & Hlast1).
  unfold generated_buffers. cbn [river_verts bank_verts]. fold S.
  rewrite !(proj1 (with_normals_tangents_at _ _ _)).
  destruct (Z.eq_dec k (S - 1)) as [-> | Hne].
  - rewrite Hlast0, Hlast1. split; [reflexivity |]. split; [reflexivity |].
    intros _. split; reflexivity.
  - destruct (Hbefore k ltac:(lia)) as [H0 H1]. rewrite H0, H1.
    split; [reflexivity |]. split; [reflexivity |].
    intros [Heq | Hlow]; [lia |].
    pose proof (n_ge_2 river Hvalid) as Hn. fold n in Hn.
    rewrite !Hframe by nia. split; reflexivity.
Qed.

(** With eight contours every row of the river shares its two positions
    with the bank. *)
Lemma river_edge_shared_8 k :
  n = 8 -> 0 <= k < S ->
  let b := generated_buffers river seed track in
  pos (at_ (river_verts b) (2 * k)) = pos (at_ (bank_verts b) (k * n + r)) /\
  pos (at_ (river_verts b) (2 * k + 1)) = pos (at_ (bank_verts b) (k * n + r + 1)).
Proof using Hvalid Hfit Hseg.
  intros Hn8 Hk b. subst b.
  pose proof (r_eq river track Hvalid Hfit Hseg) as Hreq.
  pose proof (r_range river track Hvalid Hfit Hseg) as Hr. rewrite Hreq in Hr.
  fold n r in Hr.
  destruct (river_vertices k Hk) as (_ & _ & Hpos).
  apply Hpos. lia.
Qed.

End RiverEdge.

(** ** The component *)

Section ComponentFacts.
Context `{Ext : Externals}.

Lemma bind_Done_inv {A B : Type} (o : outcome A) (k : A -> outcome B) (b : B) :
  (o ≫= k) = Done b -> exists a, o = Done a /\ k a = Done b.
Proof. destruct o; simpl; intros H; try discriminate. eauto. Qed.

Lemma deref_Done_inv {A : Type} (p : option A) (a : A) :
  deref p = Done a -> p = Some a.
Proof. destruct p; simpl; intros H; [congruence | discriminate]. Qed.

(** What a regeneration that runs to its end does to the entities. *)
Lemma CreateRiverMesh_Done entity w w' :
  CreateRiverMesh entity w = Done w' ->
  exists d,
    w_river_data w !! entity = Some d /\
    w_config w' = w_config w /\
    w_rails w' = w_rails w /\
    match bank d with
    | Some b =>
        w_river_data w' = w_river_data w /\
        w_next_entity w' = w_next_entity w /\
        w_children w' = w_children w /\
        exists m, rm_mesh <$> (w_render_mesh w' !! b) = Some (Some m)
    | None =>
        w_river_data w' =
        <[entity := MkRiverData (rail_name d) (random_seed d)
                                (Some (w_next_entity w))]> (w_river_data w) /\
        w_next_entity w' = Datatypes.S (w_next_entity w) /\
        w_children w' = (w_next_entity w, entity) :: w_children w /\
        exists m, rm_mesh <$> (w_render_mesh w' !! w_next_entity w) = Some (Some m)
    end.
Proof.
  unfold CreateRiverMesh. intros H.
  apply bind_Done_inv in H. destruct H as (d & Hd & H).
  apply deref_Done_inv in Hd.
  apply bind_Done_inv in H. destruct H as ([bufs g] & Hgen & H).
  apply bind_Done_inv in H. destruct H as (rmd & Hrmd & H).
  exists d. split; [exact Hd |].
  destruct (bank d) as [b |] eqn:Hbank.
  - cbn [w_river_data w_render_mesh] in H.
    apply bind_Done_inv in H. destruct H as (d2 & Hd2 & H).
    apply deref_Done_inv in Hd2. rewrite Hd in Hd2. injection Hd2 as <-.
    apply bind_Done_inv in H. destruct H as (b2 & Hb2 & H).
    apply deref_Done_inv in Hb2. rewrite Hbank in Hb2. injection Hb2 as <-.
    apply bind_Done_inv in H. destruct H as (rmd2 & _ & H).
    injection H as <-. cbn.
    split; [reflexivity |]. split; [reflexivity |].
    split; [reflexivity |]. split; [reflexivity |]. split; [reflexivity |].
    eexists. rewrite lookup_insert_eq. reflexivity.
  - cbn [w_river_data w_render_mesh] in H.
    apply bind_Done_inv in H. destruct H as (d2 & Hd2 & H).
    apply deref_Done_inv in Hd2. rewrite lookup_insert_eq in Hd2. injection Hd2 as <-.
    apply bind_Done_inv in H. destruct H as (b2 & Hb2 & H).
    apply deref_Done_inv in Hb2. cbn in Hb2. injection Hb2 as <-.
    apply bind_Done_inv in H. destruct H as (rmd2 & _ & H).
    injection H as <-. cbn.
    split; [reflexivity |]. split; [reflexivity |].
    split; [reflexivity |]. split; [reflexivity |]. split; [reflexivity |].
    eexists. rewrite lookup_insert_eq. reflexivity.
Qed.


End ComponentFacts.

(** ** Construction and export *)

Section RoundTrip.
Context `{Ext : Externals}.

Lemma add_entity_lookup {A : Type} entity (dflt : A) (m : gmap nat A) :
  is_Some (add_entity entity dflt m !! entity).
Proof.
  unfold add_entity. destruct (m !! entity) as [a |] eqn:Hm.
  - rewrite Hm. eauto.
  - rewrite lookup_insert_eq. eauto.
Qed.

(** A definition without a name cannot be constructed from: line 54 calls
    [c_str] through the null pointer. *)
Lemma AddFromRawData_without_name entity seed w :
  AddFromRawData entity (MkRiverDef None seed) w = NullDereference.
Proof.
  unfold AddFromRawData.
  destruct (add_entity_lookup entity default_RiverData (w_river_data w)) as [d Hd].
  rewrite Hd. reflexivity.
Qed.

(** Export after construction gives back the seed and the name as a C string,
    left out when it is empty. *)
Lemma export_after_construct entity name seed w w' :
  AddFromRawData entity (MkRiverDef (Some name) seed) w = Done w' ->
  ExportRawData entity w' =
  Some (MkRiverDef (if String.eqb (c_str name) "" then None else Some (c_str name))
                   seed).
Proof.
  unfold AddFromRawData. intros H.
  apply bind_Done_inv in H. destruct H as (old & _ & H).
  apply bind_Done_inv in H. destruct H as (name' & Hname & H).
  injection Hname as <-.
  apply CreateRiverMesh_Done in H.
  destruct H as (d & Hd & _ & _ & H). cbn in Hd.
  rewrite lookup_insert_eq in Hd. injection Hd as <-. cbn in H.
  unfold ExportRawData.
  destruct (bank old) as [b |].
  - destruct H as (Hdata & _). rewrite Hdata. cbn.
    rewrite lookup_insert_eq. reflexivity.
  - destruct H as (Hdata & _). rewrite Hdata. cbn.
    rewrite lookup_insert_eq. reflexivity.
Qed.

(** What [c_str] keeps is a C string. *)
Lemma c_str_no_nul s : c_str (c_str s) = c_str s.
Proof.
  induction s as [| c s IH]; [reflexivity |].
  simpl. destruct (Ascii.eqb c Ascii.zero) eqn:E; [reflexivity |].
  simpl. rewrite E, IH. reflexivity.
Qed.

(** The round trip for a name that is a non-empty C string. *)
Lemma round_trip_named entity name seed w w' :
  c_str name = name -> name <> EmptyString ->
  AddFromRawData entity (MkRiverDef (Some name) seed) w = Done w' ->
  ExportRawData entity w' = Some (MkRiverDef (Some name) seed).
Proof.
  intros Hc Hne H. rewrite (export_after_construct _ _ _ _ _ H). rewrite Hc.
  destruct (String.eqb name "") eqn:E; [| reflexivity].
  apply String.eqb_eq in E. contradiction.
Qed.

End RoundTrip.

(** * The claims *)

(** C1 fails on the code, by the defect of C2: line 201 stores at
    [size - (8 - j)] for every contour [j], so with nine contours the store
    for the ninth contour goes to the index [size], one past the end of the
    bank vertex buffer.  The behaviour is undefined from there on, and the
    counts of lines 245-248 are not reached.  The input is a valid
    configuration and a closed loop of four samples. *)
Theorem counts_not_reached_9 :
  valid_config river9 /\
  2 <= Z.of_nat (length loop_track) /\
  buffers_fit river9 loop_track /\
  Z.of_nat (length loop_track) * num_contours river9 = 36 /\
  generate (Ext := example_externals) river9 7 loop_track 0 = OutOfBounds 36.
Proof.
  split; [vm_compute; intuition discriminate |].
  split; [vm_compute; discriminate |].
  split; [vm_compute; discriminate |].
  split; vm_compute; reflexivity.
Qed.

(** C2 fails on the code: line 201 stores at [size - (8 - j)], so with four
    contours and two samples the stores land on the first row itself and the
    last row keeps its own positions.  All stores are inside the buffer. *)
Theorem loop_left_open_4 :
  exists b g,
    valid_config river4 /\
    generate (Ext := example_externals) river4 7 track2 0 = Done (b, g) /\
    oob_stores b = [] /\
    forall j, 0 <= j < num_contours river4 ->
      ~ vec3_eq (pos (at_ (bank_verts b) ((2 - 1) * num_contours river4 + j)))
                (pos (at_ (bank_verts b) j)).
Proof.
  eexists. eexists. split; [vm_compute; intuition discriminate |].
  split; [vm_compute; reflexivity |].
  split; [reflexivity |].
  intros j Hj. change (num_contours river4) with 4 in *.
  assert (Hcases : j = 0 \/ j = 1 \/ j = 2 \/ j = 3) by lia.
  destruct Hcases as [-> | [-> | [-> | ->]]];
    vm_compute; intros [H _]; discriminate H.
Qed.

(** With fewer than eight bank vertices the first store of line 201 is
    already outside the buffer: here at the index [2^64 - 4], four vertices
    before the start of the vector. *)
Example close_loop_out_of_bounds :
  generate (Ext := example_externals) river2 7 track2 0 = OutOfBounds (2 ^ 64 - 4).
Proof. vm_compute. reflexivity. Qed.

(** C3 fails on the code.  The input is a valid configuration of eight
    contours and a closed loop of four samples, the corners of a rectangle a
    thousand units from the origin; no store leaves the buffer.

    - The last row: line 201 overwrites it with the first row after it was
      corrected, and nothing checks it again.  Its vertex at contour 0 ends
      behind the vertex of the row before it.
    - Row 1, contour 0: the vertex as appended is level with the vertex
      before it along the track delta (the dot product of line 190 is 0), so
      line 193 runs.  The model, in exact arithmetic, puts the vertex a
      millionth of the track delta ahead.  In [float] arithmetic
      [1004 + 0.000001f * 4] is [1004]: line 193 stores the position of the
      previous vertex itself, and the vertex does not advance. *)
Theorem forward_progress_lost :
  exists b g,
    valid_config river8 /\
    generate (Ext := example_externals) river8 7 loop_track 0 = Done (b, g) /\
    oob_stores b = [] /\
    ~ forward_progress river8 loop_track (bank_verts b) /\
    (DotProduct (vsub (pos (at_ (bank_verts b) (3 * num_contours river8 + 0)))
                      (pos (at_ (bank_verts b) ((3 - 1) * num_contours river8 + 0))))
                (vsub (at_ loop_track 3) (at_ loop_track (3 - 1))) < 0)%Q /\
    vec3_eq (pos (at_ (bank_verts b) 0)) (Vec3 1004 0 2) /\
    vec3_eq (pos (raw_vertex (Ext := example_externals) river8 7 loop_track 1 0))
            (Vec3 1004 4 2) /\
    vec3_eq (vsub (at_ loop_track 1) (at_ loop_track (1 - 1))) (Vec3 4 0 0) /\
    vec3_eq (pos (at_ (bank_verts b) (1 * num_contours river8 + 0)))
            (vadd (Vec3 1004 0 2) (vscale 0.000001 (Vec3 4 0 0))) /\
    let prev := Binary32.vec3_of_Z 1004 0 2 in
    let track_delta := Binary32.vec3_of_Z 4 0 0 in
    let cur := Binary32.correct_vertex (Binary32.vec3_of_Z 1004 4 2) prev track_delta in
    cur = prev /\
    Binary32.ltb (Binary32.of_Z 0)
                 (Binary32.DotProduct (Binary32.vsub cur prev) track_delta) = false.
Proof.
  eexists. eexists. split; [vm_compute; intuition discriminate |].
  split; [vm_compute; reflexivity |].
  split; [reflexivity |].
  split.
  { intros Hfp.
    assert (H1 : 0 < 3 < Z.of_nat (length loop_track))
      by (vm_compute; split; reflexivity).
    assert (H2 : 0 <= 0 < num_contours river8)
      by (vm_compute; split; [discriminate | reflexivity]).
    specialize (Hfp 3 0 H1 H2). vm_compute in Hfp. discriminate Hfp. }
  split; [vm_compute; reflexivity |].
  split; [vm_compute; repeat split; reflexivity |].
  split; [vm_compute; repeat split; reflexivity |].
  split; [vm_compute; repeat split; reflexivity |].
  split; [vm_compute; repeat split; reflexivity |].
  split; vm_compute; reflexivity.
Qed.

(** The literal [0.000001f] is the quotient of 1 by 1000000 rounded to
    [float]. *)
Lemma epsilon_is_a_millionth :
  Binary32.div (Binary32.of_Z 1) (Binary32.of_Z 1000000) = Binary32.epsilon.
Proof. vm_compute. reflexivity. Qed.

(** C4 fails on the code, by the defect of C2: with four contours and three
    samples the stores of line 201 land on the second row, after its two
    river vertices were copied, and the river vertex no longer has the
    position of the bank vertex at [river_index] of its row.  All stores are
    inside the buffer. *)
Theorem river_edge_not_shared_4 :
  exists b g,
    valid_config river4 /\
    generate (Ext := example_externals) river4 7 track3 0 = Done (b, g) /\
    oob_stores b = [] /\
    ~ vec3_eq (pos (at_ (river_verts b) (2 * 1)))
              (pos (at_ (bank_verts b) (1 * num_contours river4 + river_index river4))).
Proof.
  eexists. eexists. split; [vm_compute; intuition discriminate |].
  split; [vm_compute; reflexivity |].
  split; [reflexivity |].
  vm_compute. intros [H _]. discriminate H.
Qed.

(** C5.  Two runs of mesh generation with the same seed and the same track
    give the same outcome, vertex for vertex and index for index, and leave
    the process-wide generator in the same state, whatever its state [g1] and
    [g2] when each run starts: line 126 reseeds it before the first draw. *)
Theorem regeneration_deterministic `{Ext : Externals} (river : RiverConfig)
    (seed : Z) (track : list vec3) (g1 g2 : rng_state) :
  generate river seed track g1 = generate river seed track g2.
Proof. reflexivity. Qed.

(** The state of the process-wide generator does not reach the outcome of a
    regeneration either, entities and meshes included. *)
Lemma CreateRiverMesh_ignores_generator `{Ext : Externals} (entity : nat) (w : World)
    (g : rng_state) :
  CreateRiverMesh entity (edited (w_rails w) g w) = CreateRiverMesh entity w.
Proof. reflexivity. Qed.





(** C7 fails on the code.  A river constructed with the empty name exports a
    definition without the name field, and constructing from that
    definition dereferences the null pointer at line 54, in every world. *)
Theorem empty_name_reimport_fails :
  exists w1 exported,
    AddFromRawData (Ext := example_externals) 0 (MkRiverDef (Some "") 7)
                   (example_world river8 track4) = Done w1 /\
    ExportRawData (Ext := example_externals) 0 w1 = Some exported /\
    exported = MkRiverDef None 7 /\
    forall entity w,
      AddFromRawData (Ext := example_externals) entity exported w = NullDereference.
Proof.
  exists (after (example_world river8 track4)
                (AddFromRawData (Ext := example_externals) 0 (MkRiverDef (Some "") 7)
                                (example_world river8 track4))).
  exists (MkRiverDef None 7).
  split; [vm_compute; reflexivity |].
  split; [vm_compute; reflexivity |].
  split; [reflexivity |].
  intros entity w. apply AddFromRawData_without_name.
Qed.



(** C9, amended.  The index loop runs [segment_count - 1] rounds; each emits
    one river quad and one bank quad per adjacent pair of contours except the
    pair [river_index]; a quad is the triangles [(base, base+1, base+stride)]
    and [(base+stride, base+1, base+stride+1)], the stride 2 for the river and
    [num_contours] for the bank, each index stored as an [unsigned short].
    For [num_contours = 8], [river_index = 3], [segment_count = 4] the river
    index list has length 18 and the bank index list length 108, and no bank
    quad is at the pair 3.  Stated of the loop of lines 216-242 as
    [generate] calls it; the index buffers of a run that reaches its end are
    the lists of this loop. *)
Theorem index_buffers `{Ext : Externals} (river : RiverConfig) (track : list vec3) :
  valid_config river ->
  1 <= Z.of_nat (length track) ->
  buffers_fit river track ->
  let n := num_contours river in
  let r := river_index river in
  let S := Z.of_nat (length track) in
  let ix := generate_indices n (SizeT.sub n 2) (SizeT.wrap r) S in
  fst ix = to_ushort <$> spec_river_indices S /\
  snd ix = to_ushort <$> spec_bank_indices n r S /\
  (forall i j, (i, j) ∈ bank_quads n r S <->
               0 <= i < S - 1 /\ 0 <= j < n - 1 /\ j <> r) /\
  Z.of_nat (length (bank_quads n r S)) = (S - 1) * (n - 2) /\
  (S * n <= 2 ^ 16 ->
   fst ix = spec_river_indices S /\ snd ix = spec_bank_indices n r S) /\
  (n = 8 -> r = 3 -> S = 4 ->
   length (fst ix) = 18%nat /\ length (snd ix) = 108%nat /\
   forall i, (i, 3) ∉ bank_quads n r S) /\
  (forall seed g0 b g,
     generate river seed track g0 = Done (b, g) ->
     river_indices b = fst ix /\ bank_indices b = snd ix).
Proof.
  intros Hvalid Hseg Hfit n r S ix.
  pose proof Hvalid as [Hn Hr]. fold n r in Hn, Hr.
  pose proof (sizes_small river track Hfit) as Hs. fold n S in Hs.
  assert (Hmodv : SizeT.modulus = 2 ^ 64) by reflexivity.
  assert (Hix : ix = (to_ushort <$> spec_river_indices S,
                      to_ushort <$> spec_bank_indices n r S)).
  { fold S in Hseg. unfold ix, generate_indices.
    rewrite (wrap_small r) by nia.
    rewrite (sub_small S 1) by nia.
    pose proof (index_loop n r (S - 1)) as Hloop.
    replace (S - 1 + 1) with S in Hloop by lia.
    apply Hloop; nia. }
  rewrite Hix. cbn [fst snd].
  split; [reflexivity |]. split; [reflexivity |].
  split; [intros i j; apply elem_of_bank_quads |].
  split; [apply length_bank_quads; [exact Hseg | exact Hr] |].
  split; [| split].
  - intros H16. split.
    + apply spec_river_indices_ushort. nia.
    + apply spec_bank_indices_ushort; lia.
  - intros Hn8 Hr3 HS4.
    pose proof (length_spec_river_indices S Hseg) as Hlr.
    pose proof (length_spec_bank_indices n r S Hseg Hr) as Hlb.
    rewrite !length_fmap. split; [lia |]. split; [nia |].
    intros i Hin. apply elem_of_bank_quads in Hin. lia.
  - intros seed g0 b g Hdone.
    rewrite (generate_eq river seed track Hvalid Hfit Hseg) in Hdone.
    destruct (stray_stores river track) as [| k rest]; [| discriminate].
    injection Hdone as <- _. split; reflexivity.
Qed.

Lemma index_buffers_witness :
  let ix := generate_indices 8 (SizeT.sub 8 2) (SizeT.wrap 3) 4 in
  fst ix = to_ushort <$> spec_river_indices 4 /\
  snd ix = to_ushort <$> spec_bank_indices 8 3 4 /\
  (forall i j, (i, j) ∈ bank_quads 8 3 4 <->
               0 <= i < 4 - 1 /\ 0 <= j < 8 - 1 /\ j <> 3) /\
  Z.of_nat (length (bank_quads 8 3 4)) = (4 - 1) * (8 - 2) /\
  (4 * 8 <= 2 ^ 16 ->
   fst ix = spec_river_indices 4 /\ snd ix = spec_bank_indices 8 3 4) /\
  (8 = 8 -> 3 = 3 -> 4 = 4 ->
   length (fst ix) = 18%nat /\ length (snd ix) = 108%nat /\
   forall i, (i, 3) ∉ bank_quads 8 3 4) /\
  (forall seed g0 b g,
     generate (Ext := example_externals) river8 seed track4 g0 = Done (b, g) ->
     river_indices b = fst ix /\ bank_indices b = snd ix).
Proof.
  assert (Hvalid : valid_config river8) by (vm_compute; intuition discriminate).
  assert (Hseg : 1 <= Z.of_nat (length track4)) by (vm_compute; discriminate).
  assert (Hfit : buffers_fit river8 track4) by (vm_compute; discriminate).
  exact (index_buffers (Ext := example_externals) river8 track4 Hvalid Hseg Hfit).
Defined.

(** C9 as stated fails: in its scenario the bank index list has 108 entries,
    not 72. *)
Lemma bank_index_count_not_72 :
  exists b g,
    generate (Ext := example_externals) river8 7 track4 0 = Done (b, g) /\
    num_contours river8 = 8 /\ river_index river8 = 3 /\
    length track4 = 4%nat /\
    length (river_indices b) = 18%nat /\
    length (bank_indices b) <> 72%nat.
Proof.
  eexists. eexists. split; [vm_compute; reflexivity |].
  repeat split. vm_compute. discriminate.
Qed.

(** C10.  The assertion of line 110 fails exactly when the configuration is
    malformed: fewer than two contours, or [river_index] outside
    [0 .. num_contours - 2]. *)
Theorem config_assertion `{Ext : Externals} (river : RiverConfig) (seed : Z)
    (track : list vec3) (g0 : rng_state) :
  config_representable river ->
  (generate river seed track g0 = AssertionFailed ConfigInvariant <->
   ~ valid_config river).
Proof.
  intros [Hn32 Hri].
  assert (Hmodv : SizeT.modulus = 2 ^ 64) by reflexivity.
  unfold valid_config. set (n := num_contours river) in *.
  assert (Hn0 : 0 <= n) by (unfold n, num_contours; lia).
  unfold generate. change (Z.of_nat (length (banks river))) with n.
  destruct (Z_lt_ge_dec n 2) as [Hsmall | Hbig].
  - (* fewer than two contours *)
    split; [intros _; lia |]. intros _.
    apply assert_false. apply andb_false_intro1. apply Z.leb_gt. exact Hsmall.
  - rewrite (sub_small n 1) by lia.
    destruct (Z_lt_ge_dec (river_index river) 0) as [Hneg | Hpos].
    + (* a negative index converts to a huge [size_t] *)
      split; [intros _; lia |]. intros _.
      apply assert_false. apply andb_false_intro2. apply Z.ltb_ge.
      unfold SizeT.wrap.
      pose proof (sub_borrow (river_index river) 0 ltac:(lia)) as Hw.
      unfold SizeT.sub in Hw. rewrite Z.sub_0_r in Hw.
      unfold SizeT.wrap in Hw. rewrite Hw. lia.
    + rewrite (wrap_small (river_index river)) by lia.
      destruct (Z_lt_ge_dec (river_index river) (n - 1)) as [Hin | Hout].
      * (* a valid configuration: the other outcomes are not this assertion *)
        split; [| intros Hnot; exfalso; apply Hnot; lia].
        rewrite assert_true
          by (apply andb_true_intro; split; [apply Z.leb_le | apply Z.ltb_lt]; lia).
        unfold vector_alloc, assert, defined_stores.
        repeat match goal with
               | |- context [if ?c then _ else _] => destruct c
               | |- context [match ?l with [] => _ | _ :: _ => _ end] => destruct l
               end; simpl; discriminate.
      * split; [intros _; lia |]. intros _.
        apply assert_false. apply andb_false_intro2. apply Z.ltb_ge. lia.
Qed.

Lemma config_assertion_witness :
  generate (Ext := example_externals) river1 7 track2 0 =
    AssertionFailed ConfigInvariant <->
  ~ valid_config river1.
Proof.
  assert (Hrep : config_representable river1) by (vm_compute; intuition discriminate).
  exact (config_assertion (Ext := example_externals) river1 7 track2 0 Hrep).
Defined.

(** * Further properties of the code *)

(** X1.  For a valid configuration and a track of at least one sample, mesh
    generation runs to its end exactly when the configuration has at most
    eight contours and the bank vertex buffer at least eight vertices.  In
    every other case a store of line 201 falls outside the buffer: the call
    is undefined from the first such store on, and the index of that store
    is not below the size of the buffer. *)
Theorem stores_inside_buffer_iff `{Ext : Externals} (river : RiverConfig) (seed : Z)
    (track : list vec3) (g0 : rng_state) :
  valid_config river ->
  buffers_fit river track ->
  1 <= Z.of_nat (length track) ->
  let inside :=
    num_contours river <= 8 /\ 8 <= Z.of_nat (length track) * num_contours river in
  ((exists b g, generate river seed track g0 = Done (b, g)) <-> inside) /\
  ((exists i, generate river seed track g0 = OutOfBounds i /\
              Z.of_nat (length track) * num_contours river <= i) <-> ~ inside).
Proof.
  intros Hvalid Hfit Hseg inside. subst inside. split; split.
  - intros (b & g & Hdone).
    rewrite (generate_eq river seed track Hvalid Hfit Hseg) in Hdone.
    destruct (stray_stores river track) as [| i rest] eqn:Hstray; [| discriminate].
    apply (stray_stores_nil river track Hvalid Hfit Hseg). exact Hstray.
  - intros [Hcontours Hverts]. eexists. eexists.
    apply generate_done; assumption.
  - intros (i & Hout & _) [Hcontours Hverts].
    rewrite generate_done in Hout by assumption. discriminate.
  - intros Hout. apply generate_out_of_bounds; assumption.
Qed.

Lemma stores_inside_buffer_iff_witness :
  let inside :=
    num_contours river2 <= 8 /\ 8 <= Z.of_nat (length track2) * num_contours river2 in
  ((exists b g, generate (Ext := example_externals) river2 7 track2 0 = Done (b, g))
   <-> inside) /\
  ((exists i, generate (Ext := example_externals) river2 7 track2 0 = OutOfBounds i /\
              Z.of_nat (length track2) * num_contours river2 <= i) <-> ~ inside).
Proof.
  assert (Hvalid : valid_config river2) by (vm_compute; intuition discriminate).
  assert (Hfit : buffers_fit river2 track2) by (vm_compute; discriminate).
  assert (Hseg : 1 <= Z.of_nat (length track2)) by (vm_compute; discriminate).
  exact (stores_inside_buffer_iff (Ext := example_externals) river2 7 track2 0
           Hvalid Hfit Hseg).
Defined.

(** ** The sizes of the buffers *)

(** X20.  With at most eight contours and at least eight bank vertices, for
    a valid configuration and a track of [S >= 2] samples whose buffers a
    [std::vector] can hold, mesh generation runs to its end and produces
    [2 S] river vertices, [6 (S - 1)] river indices, [S * num_contours] bank
    vertices and [6 (S - 1) (num_contours - 2)] bank indices. *)
Theorem mesh_counts `{Ext : Externals} (river : RiverConfig) (seed : Z)
    (track : list vec3) (g0 : rng_state) :
  valid_config river ->
  2 <= Z.of_nat (length track) ->
  buffers_fit river track ->
  num_contours river <= 8 ->
  8 <= Z.of_nat (length track) * num_contours river ->
  exists b g,
    generate river seed track g0 = Done (b, g) /\
    Z.of_nat (length (river_verts b)) = 2 * Z.of_nat (length track) /\
    Z.of_nat (length (river_indices b)) = 6 * (Z.of_nat (length track) - 1) /\
    Z.of_nat (length (bank_verts b)) = Z.of_nat (length track) * num_contours river /\
    Z.of_nat (length (bank_indices b)) =
    6 * (Z.of_nat (length track) - 1) * (num_contours river - 2).
Proof.
  intros Hvalid Hseg Hfit Hcontours Hverts.
  assert (Hseg1 : 1 <= Z.of_nat (length track)) by lia.
  exists (generated_buffers river seed track), (row_rng river seed (Z.of_nat (length track))).
  split; [apply generate_done; assumption |].
  pose proof (loop_state_final river seed track Hvalid Hfit Hseg1) as Hfinal.
  simpl in Hfinal. destruct Hfinal as (_ & _ & Hblen & _ & _ & Hrlen & _).
  unfold generated_buffers. simpl.
  split; [exact Hrlen |].
  split; [rewrite length_fmap; apply length_spec_river_indices; lia |].
  split; [unfold with_normals_tangents; rewrite length_imap; exact Hblen |].
  rewrite length_fmap. apply length_spec_bank_indices; [lia |].
  destruct Hvalid as [_ Hr]. exact Hr.
Qed.

Lemma mesh_counts_witness :
  exists b g,
    generate (Ext := example_externals) river8 7 track4 0 = Done (b, g) /\
    Z.of_nat (length (river_verts b)) = 8 /\
    Z.of_nat (length (river_indices b)) = 18 /\
    Z.of_nat (length (bank_verts b)) = 32 /\
    Z.of_nat (length (bank_indices b)) = 108.
Proof.
  assert (Hvalid : valid_config river8) by (vm_compute; intuition discriminate).
  assert (Hseg : 2 <= Z.of_nat (length track4)) by (vm_compute; discriminate).
  assert (Hfit : buffers_fit river8 track4) by (vm_compute; discriminate).
  assert (Hcontours : num_contours river8 <= 8) by (vm_compute; discriminate).
  assert (Hverts : 8 <= Z.of_nat (length track4) * num_contours river8)
    by (vm_compute; discriminate).
  exact (mesh_counts (Ext := example_externals) river8 7 track4 0 Hvalid Hseg Hfit
           Hcontours Hverts).
Defined.

(** ** Degenerate tracks *)

(** X2.  With a valid configuration and an empty track, [segment_count - 1]
    wraps around at line 106 and the constructor of the river index vector
    throws: no mesh is generated. *)
Theorem empty_track_length_error `{Ext : Externals} (river : RiverConfig) (seed : Z)
    (g0 : rng_state) :
  valid_config river ->
  config_representable river ->
  generate river seed [] g0 = LengthError.
Proof.
  intros [Hn Hr] [Hn32 _].
  assert (Hmodv : SizeT.modulus = 2 ^ 64) by reflexivity.
  unfold generate. change (Z.of_nat (length (banks river))) with (num_contours river).
  rewrite (sub_small (num_contours river) 1) by lia.
  rewrite (wrap_small (river_index river)) by lia.
  rewrite assert_true
    by (apply andb_true_intro; split; [apply Z.leb_le | apply Z.ltb_lt]; lia).
  reflexivity.
Qed.

Lemma empty_track_length_error_witness :
  generate (Ext := example_externals) river8 7 [] 0 = LengthError.
Proof.
  assert (Hvalid : valid_config river8) by (vm_compute; intuition discriminate).
  assert (Hrep : config_representable river8) by (vm_compute; intuition discriminate).
  exact (empty_track_length_error (Ext := example_externals) river8 7 0 Hvalid Hrep).
Defined.

(** ** Eight contours *)

(** X3.  With eight contours and at least two samples the loop is closed:
    every store of line 201 is inside the buffer and the last row of the bank
    has the positions of the first row. *)
Theorem eight_contours_close_the_loop `{Ext : Externals} (river : RiverConfig)
    (seed : Z) (track : list vec3) (g0 : rng_state) :
  valid_config river ->
  buffers_fit river track ->
  2 <= Z.of_nat (length track) ->
  num_contours river = 8 ->
  exists b g,
    generate river seed track g0 = Done (b, g) /\
    oob_stores b = [] /\
    forall j, 0 <= j < 8 ->
      pos (at_ (bank_verts b) ((Z.of_nat (length track) - 1) * 8 + j)) =
      pos (at_ (bank_verts b) j).
Proof.
  intros Hvalid Hfit Hseg Hn.
  exists (generated_buffers river seed track),
         (row_rng river seed (Z.of_nat (length track))).
  split; [apply generate_done; [assumption | assumption | lia | lia | nia] |].
  apply (loop_closed_8 river seed track Hvalid Hfit Hseg Hn).
Qed.

Lemma eight_contours_close_the_loop_witness :
  exists b g,
    generate (Ext := example_externals) river8 7 track4 0 = Done (b, g) /\
    oob_stores b = [] /\
    forall j, 0 <= j < 8 ->
      pos (at_ (bank_verts b) ((Z.of_nat (length track4) - 1) * 8 + j)) =
      pos (at_ (bank_verts b) j).
Proof.
  assert (Hvalid : valid_config river8) by (vm_compute; intuition discriminate).
  assert (Hfit : buffers_fit river8 track4) by (vm_compute; discriminate).
  assert (Hseg : 2 <= Z.of_nat (length track4)) by (vm_compute; discriminate).
  assert (Hn : num_contours river8 = 8) by reflexivity.
  exact (eight_contours_close_the_loop (Ext := example_externals) river8 7 track4 0
           Hvalid Hfit Hseg Hn).
Defined.

(** X4.  With eight contours the two river vertices of every row have the
    positions of the bank vertices at [river_index] and [river_index + 1] of
    that row in the generated bank, and the texture coordinates [(0, V)] and
    [(1, V)] of the row. *)
Theorem eight_contours_share_the_river_edge `{Ext : Externals} (river : RiverConfig)
    (seed : Z) (track : list vec3) (g0 : rng_state) (k : Z) :
  valid_config river ->
  buffers_fit river track ->
  num_contours river = 8 ->
  0 <= k < Z.of_nat (length track) ->
  exists b g,
    generate river seed track g0 = Done (b, g) /\
    pos (at_ (river_verts b) (2 * k)) =
    pos (at_ (bank_verts b) (k * 8 + river_index river)) /\
    pos (at_ (river_verts b) (2 * k + 1)) =
    pos (at_ (bank_verts b) (k * 8 + river_index river + 1)) /\
    tc (at_ (river_verts b) (2 * k)) =
    TexCoord (Fin 0) (texture_v_at river (Z.of_nat (length track)) k) /\
    tc (at_ (river_verts b) (2 * k + 1)) =
    TexCoord (Fin 1) (texture_v_at river (Z.of_nat (length track)) k).
Proof.
  intros Hvalid Hfit Hn Hk.
  assert (Hseg : 1 <= Z.of_nat (length track)) by lia.
  exists (generated_buffers river seed track),
         (row_rng river seed (Z.of_nat (length track))).
  split; [apply generate_done; [assumption | assumption | assumption | lia | nia] |].
  destruct (river_vertices river seed track Hvalid Hfit Hseg k Hk) as (Htc0 & Htc1 & _).
  destruct (river_edge_shared_8 river seed track Hvalid Hfit Hseg k Hn Hk)
    as (Hp0 & Hp1).
  rewrite Hn in Hp0, Hp1.
  split; [exact Hp0 |]. split; [exact Hp1 |]. split; [exact Htc0 | exact Htc1].
Qed.

Lemma eight_contours_share_the_river_edge_witness :
  exists b g,
    generate (Ext := example_externals) river8 7 track4 0 = Done (b, g) /\
    pos (at_ (river_verts b) (2 * 1)) =
    pos (at_ (bank_verts b) (1 * 8 + river_index river8)) /\
    pos (at_ (river_verts b) (2 * 1 + 1)) =
    pos (at_ (bank_verts b) (1 * 8 + river_index river8 + 1)) /\
    tc (at_ (river_verts b) (2 * 1)) =
    TexCoord (Fin 0) (texture_v_at river8 (Z.of_nat (length track4)) 1) /\
    tc (at_ (river_verts b) (2 * 1 + 1)) =
    TexCoord (Fin 1) (texture_v_at river8 (Z.of_nat (length track4)) 1).
Proof.
  assert (Hvalid : valid_config river8) by (vm_compute; intuition discriminate).
  assert (Hfit : buffers_fit river8 track4) by (vm_compute; discriminate).
  assert (Hn : num_contours river8 = 8) by reflexivity.
  assert (Hk : 0 <= 1 < Z.of_nat (length track4))
    by (vm_compute; split; [discriminate | reflexivity]).
  exact (eight_contours_share_the_river_edge (Ext := example_externals) river8 7
           track4 0 1 Hvalid Hfit Hn Hk).
Defined.

(** ** Texture coordinates of the generated bank *)

Section BankTexture.
Context `{Ext : Externals}.
Variable river : RiverConfig.
Variable seed : Z.
Variable track : list vec3.
Hypothesis Hvalid : valid_config river.
Hypothesis Hfit : buffers_fit river track.

Let n := num_contours river.
Let S := Z.of_nat (length track).

(** The texture coordinates of a generated bank vertex are those line 175
    gave it. *)
Lemma generated_bank_tc i j :
  0 <= i < S -> 0 <= j < n ->
  tc (at_ (bank_verts (generated_buffers river seed track)) (i * n + j)) =
  TexCoord (texture_u n (river_index river)
                      (row_offsets river (row_rng river seed i)) j)
           (texture_v_at river S i).
Proof using Hvalid Hfit.
  intros Hi Hj.
  assert (Hseg : 1 <= Z.of_nat (length track)) by (fold S; lia).
  pose proof (r_eq river track Hvalid Hfit Hseg) as Hreq.
  pose proof (loop_state_final river seed track Hvalid Hfit Hseg) as Hfinal.
  cbv zeta in Hfinal.
  destruct Hfinal as (Hrows & _ & _ & Htc & _).
  unfold generated_buffers. cbn [bank_verts].
  rewrite (proj2 (with_normals_tangents_at _ _ _)).
  rewrite Htc. unfold n, S in *.
  rewrite (rows_tc _ _ _ _ _ Hrows i j Hi Hj).
  unfold raw_vertex, bank_vertex. cbn [tc]. rewrite Hreq. reflexivity.
Qed.

End BankTexture.

(** X5.  Every vertex of a row carries the one texture coordinate V that
    line 144 computes for the row: the bank vertex of every contour and both
    river vertices of the row. *)
Theorem texture_v_of_row `{Ext : Externals} (river : RiverConfig) (seed : Z)
    (track : list vec3) (g0 : rng_state) (i j : Z) :
  valid_config river ->
  buffers_fit river track ->
  num_contours river <= 8 ->
  8 <= Z.of_nat (length track) * num_contours river ->
  0 <= i < Z.of_nat (length track) ->
  0 <= j < num_contours river ->
  let v := texture_v_at river (Z.of_nat (length track)) i in
  exists b g,
    generate river seed track g0 = Done (b, g) /\
    tc_v (tc (at_ (bank_verts b) (i * num_contours river + j))) = v /\
    tc_v (tc (at_ (river_verts b) (2 * i))) = v /\
    tc_v (tc (at_ (river_verts b) (2 * i + 1))) = v.
Proof.
  intros Hvalid Hfit Hcontours Hverts Hi Hj v.
  assert (Hseg : 1 <= Z.of_nat (length track)) by lia.
  exists (generated_buffers river seed track),
         (row_rng river seed (Z.of_nat (length track))).
  split; [apply generate_done; assumption |].
  destruct (river_vertices river seed track Hvalid Hfit Hseg i Hi) as (Htc0 & Htc1 & _).
  rewrite (generated_bank_tc river seed track Hvalid Hfit i j Hi Hj).
  rewrite Htc0, Htc1. cbn [tc_v].
  split; [reflexivity |]. split; reflexivity.
Qed.

Lemma texture_v_of_row_witness :
  exists b g,
    generate (Ext := example_externals) river8 7 track4 0 = Done (b, g) /\
    tc_v (tc (at_ (bank_verts b) (3 * num_contours river8 + 0))) =
    texture_v_at river8 (Z.of_nat (length track4)) 3 /\
    tc_v (tc (at_ (river_verts b) (2 * 3))) =
    texture_v_at river8 (Z.of_nat (length track4)) 3 /\
    tc_v (tc (at_ (river_verts b) (2 * 3 + 1))) =
    texture_v_at river8 (Z.of_nat (length track4)) 3.
Proof.
  assert (Hvalid : valid_config river8) by (vm_compute; intuition discriminate).
  assert (Hfit : buffers_fit river8 track4) by (vm_compute; discriminate).
  assert (Hcontours : num_contours river8 <= 8) by (vm_compute; discriminate).
  assert (Hverts : 8 <= Z.of_nat (length track4) * num_contours river8)
    by (vm_compute; discriminate).
  assert (Hi : 0 <= 3 < Z.of_nat (length track4))
    by (vm_compute; split; [discriminate | reflexivity]).
  assert (Hj : 0 <= 0 < num_contours river8)
    by (vm_compute; split; [discriminate | reflexivity]).
  exact (texture_v_of_row (Ext := example_externals) river8 7 track4 0 3 0
           Hvalid Hfit Hcontours Hverts Hi Hj).
Defined.





(** ** The process-wide generator *)

Section Generator.
Context `{Ext : Externals}.

Lemma draw_offset_rng b g : snd (draw_offset b g) = draw (draw g).
Proof.
  unfold draw_offset, draw.
  destruct (Random g) as [r1 g1]. simpl.
  destruct (Random g1) as [r2 g2]. simpl.
  destruct args_right_to_left; reflexivity.
Qed.

Lemma draw_offsets_rng bs g :
  snd (draw_offsets bs g) = Nat.iter (2 * length bs) draw g.
Proof.
  revert g. induction bs as [| b bs IH]; intros g; [reflexivity |].
  replace (2 * length (b :: bs))%nat with (2 * length bs + 2)%nat
    by (cbn [length]; lia).
  rewrite Nat.iter_add.
  change (Nat.iter 2 draw g) with (draw (draw g)).
  rewrite <- IH, <- (draw_offset_rng b g).
  cbn [draw_offsets].
  destruct (draw_offset b g) as [o g1]. cbn [snd].
  destruct (draw_offsets bs g1) as [os g2]. reflexivity.
Qed.

Lemma row_rng_draws river seed i :
  row_rng river seed i =
  Nat.iter (Z.to_nat i * (2 * length (banks river))) draw (srand seed).
Proof.
  unfold row_rng.
  induction (Z.to_nat i) as [| k IH]; [reflexivity |].
  simpl Nat.iter at 1. rewrite IH.
  unfold rng_after_row. rewrite draw_offsets_rng.
  rewrite <- Nat.iter_add. f_equal; lia.
Qed.

End Generator.

(** X7.  With at most eight contours and at least eight bank vertices, mesh
    generation leaves the process-wide generator reseeded from the instance
    seed and advanced by two draws per bank vertex,
    [2 * segment_count * num_contours] in all, whatever its state was before
    and whichever of the two draws of a vertex the compiler orders first. *)
Theorem generator_after_generation `{Ext : Externals} (river : RiverConfig) (seed : Z)
    (track : list vec3) (g0 : rng_state) :
  valid_config river ->
  buffers_fit river track ->
  num_contours river <= 8 ->
  8 <= Z.of_nat (length track) * num_contours river ->
  1 <= Z.of_nat (length track) ->
  exists b,
    generate river seed track g0 =
    Done (b, Nat.iter (2 * length track * length (banks river)) draw (srand seed)).
Proof.
  intros Hvalid Hfit Hcontours Hverts Hseg.
  exists (generated_buffers river seed track).
  rewrite (generate_done river seed track Hvalid Hfit Hseg Hcontours Hverts).
  rewrite row_rng_draws, Nat2Z.id.
  replace (2 * length track * length (banks river))%nat
    with (length track * (2 * length (banks river)))%nat by lia.
  reflexivity.
Qed.

Lemma generator_after_generation_witness :
  exists b,
    generate (Ext := example_externals) river8 7 track4 0 =
    Done (b, Nat.iter (2 * length track4 * length (banks river8))
                      (draw (Ext := example_externals))
                      (srand (Externals := example_externals) 7)).
Proof.
  assert (Hvalid : valid_config river8) by (vm_compute; intuition discriminate).
  assert (Hfit : buffers_fit river8 track4) by (vm_compute; discriminate).
  assert (Hseg : 1 <= Z.of_nat (length track4)) by (vm_compute; discriminate).
  assert (Hcontours : num_contours river8 <= 8) by (vm_compute; discriminate).
  assert (Hverts : 8 <= Z.of_nat (length track4) * num_contours river8)
    by (vm_compute; discriminate).
  exact (generator_after_generation (Ext := example_externals) river8 7 track4 0
           Hvalid Hfit Hcontours Hverts Hseg).
Defined.

(** ** The indices and the vertices they refer to *)

Lemma to_ushort_le x : 0 <= x -> 0 <= to_ushort x <= x.
Proof.
  intros Hx. unfold to_ushort. split.
  - apply Z.mod_pos_bound. reflexivity.
  - apply Z.mod_le; [exact Hx | reflexivity].
Qed.

Lemma spec_river_indices_range S x :
  x ∈ spec_river_indices S -> 0 <= x < 2 * S.
Proof.
  intros Hx. unfold spec_river_indices in Hx. apply list_elem_of_bind in Hx.
  destruct Hx as (i & Hx & Hi). apply elem_of_seqZ in Hi.
  apply quad_triangles_range in Hx; lia.
Qed.

Lemma spec_bank_indices_range n r S x :
  0 <= n -> x ∈ spec_bank_indices n r S -> 0 <= x < S * n.
Proof.
  intros Hn Hx. unfold spec_bank_indices in Hx. apply list_elem_of_bind in Hx.
  destruct Hx as ([i j] & Hx & Hq). apply elem_of_bank_quads in Hq.
  simpl in Hx. apply quad_triangles_range in Hx; [nia | lia].
Qed.

(** X8.  With at most eight contours and at least eight bank vertices, every
    index of the river mesh refers to a vertex of the river vertex buffer and
    every index of the bank mesh to a vertex of the bank vertex buffer, also
    when the indices no longer fit an [unsigned short]. *)
Theorem indices_inside_vertex_buffers `{Ext : Externals} (river : RiverConfig)
    (seed : Z) (track : list vec3) (g0 : rng_state) :
  valid_config river ->
  buffers_fit river track ->
  num_contours river <= 8 ->
  8 <= Z.of_nat (length track) * num_contours river ->
  1 <= Z.of_nat (length track) ->
  exists b g,
    generate river seed track g0 = Done (b, g) /\
    Forall (fun x => 0 <= x < Z.of_nat (length (river_verts b))) (river_indices b) /\
    Forall (fun x => 0 <= x < Z.of_nat (length (bank_verts b))) (bank_indices b).
Proof.
  intros Hvalid Hfit Hcontours Hverts Hseg.
  pose proof (n_ge_2 river Hvalid) as Hn.
  exists (generated_buffers river seed track),
         (row_rng river seed (Z.of_nat (length track))).
  split; [apply generate_done; assumption |].
  pose proof (loop_state_final river seed track Hvalid Hfit Hseg) as Hfinal.
  cbv zeta in Hfinal. destruct Hfinal as (_ & _ & Hblen & _ & _ & Hrlen & _).
  unfold generated_buffers. cbn [river_verts river_indices bank_verts bank_indices].
  unfold with_normals_tangents. rewrite length_imap, Hblen, Hrlen.
  split; apply Forall_fmap, Forall_forall; intros x Hx; simpl.
  - apply spec_river_indices_range in Hx.
    pose proof (to_ushort_le x ltac:(lia)). lia.
  - apply spec_bank_indices_range in Hx; [| lia].
    pose proof (to_ushort_le x ltac:(lia)). lia.
Qed.

Lemma indices_inside_vertex_buffers_witness :
  exists b g,
    generate (Ext := example_externals) river8 7 track4 0 = Done (b, g) /\
    Forall (fun x => 0 <= x < Z.of_nat (length (river_verts b))) (river_indices b) /\
    Forall (fun x => 0 <= x < Z.of_nat (length (bank_verts b))) (bank_indices b).
Proof.
  assert (Hvalid : valid_config river8) by (vm_compute; intuition discriminate).
  assert (Hfit : buffers_fit river8 track4) by (vm_compute; discriminate).
  assert (Hseg : 1 <= Z.of_nat (length track4)) by (vm_compute; discriminate).
  assert (Hcontours : num_contours river8 <= 8) by (vm_compute; discriminate).
  assert (Hverts : 8 <= Z.of_nat (length track4) * num_contours river8)
    by (vm_compute; discriminate).
  exact (indices_inside_vertex_buffers (Ext := example_externals) river8 7 track4 0
           Hvalid Hfit Hcontours Hverts Hseg).
Defined.

(** ** Normals and tangents *)

Lemma for_range_preserves {St : Type} (P : St -> Prop) count (body : Z -> St -> St) st :
  (forall k s, P s -> P (body k s)) -> P st -> P (for_range count body st).
Proof.
  intros Hbody. unfold for_range. generalize (seqZ 0 count). intros l.
  revert st. induction l as [| k l IH]; intros st Hst; [exact Hst |].
  simpl. apply IH, Hbody, Hst.
Qed.

Lemma at_Forall {A : Type} `{Inhabited A} (P : A -> Prop) (l : list A) i :
  Forall P l -> 0 <= i < Z.of_nat (length l) -> P (at_ l i).
Proof.
  intros Hl Hi. unfold at_.
  destruct (lookup_lt_is_Some_2 l (Z.to_nat i) ltac:(lia)) as [x Hx].
  rewrite (list_lookup_total_correct _ _ _ Hx).
  exact (proj1 (Forall_lookup P l) Hl _ _ Hx).
Qed.

Section FlatBank.
Context `{Ext : Externals}.

Let flat_bank (st : gen_state) : Prop := Forall flat (g_bank_verts st).

Lemma store_pos_flat i p st : flat_bank st -> flat_bank (store_pos i p st).
Proof.
  unfold flat_bank, store_pos. intros Hst.
  destruct (i <? Z.of_nat (length (g_bank_verts st))) eqn:Hi; [| exact Hst].
  cbn [g_bank_verts].
  destruct (decide (Z.to_nat i < length (g_bank_verts st))%nat) as [Hlt | Hge].
  - apply Forall_insert; [exact Hst |].
    assert (Hat : flat (at_ (g_bank_verts st) (Z.of_nat (Z.to_nat i))))
      by (apply at_Forall; [exact Hst | lia]).
    unfold at_ in *. rewrite Nat2Z.id in Hat. exact Hat.
  - rewrite list_insert_ge by lia. exact Hst.
Qed.

Lemma sample_step_flat river track i st :
  flat_bank st -> flat_bank (sample_step river track i st).
Proof.
  intros Hst. unfold sample_step. cbv zeta.
  match goal with
  | |- flat_bank (emit_river_pair _ _ _ ?s) =>
      change (flat_bank s)
  end.
  assert (Hrow : forall tp tn tv, flat_bank (emit_bank_row river tp tn tv st)).
  { intros tp tn tv. rewrite emit_bank_row_eq. unfold flat_bank. cbn [g_bank_verts].
    apply Forall_app. split; [exact Hst |].
    apply Forall_fmap, Forall_forall. intros j _. split; reflexivity. }
  assert (Hcorrect : forall n d s, flat_bank s -> flat_bank (correct_row n d s)).
  { intros n d s Hs. unfold correct_row.
    apply (for_range_preserves flat_bank); [| exact Hs].
    intros k s' Hs'. unfold correct_vertex. cbv zeta.
    destruct (Qle_bool _ 0); [apply store_pos_flat; exact Hs' | exact Hs']. }
  assert (Hclose : forall n s, flat_bank s -> flat_bank (close_loop n s)).
  { intros n s Hs. unfold close_loop.
    apply (for_range_preserves flat_bank); [| exact Hs].
    intros k s' Hs'. apply store_pos_flat. exact Hs'. }
  destruct (i =? SizeT.sub (Z.of_nat (length track)) 1);
    destruct (0 <? i); auto.
Qed.

Lemma loop_state_flat river seed track i :
  Forall flat (g_bank_verts (loop_state river seed track i)).
Proof.
  unfold loop_state.
  apply (for_range_preserves flat_bank); [| constructor].
  intros k s. apply sample_step_flat.
Qed.

End FlatBank.

(** X9.  With at most eight contours and at least eight bank vertices, the
    river vertices keep the normal (0, 1, 0) and the tangent (1, 0, 0, 1) of
    line 176: they are copied from the bank at lines 207 and 209, before
    line 250 computes normals and tangents, which go into the bank vertices
    only. *)
Theorem river_vertices_flat `{Ext : Externals} (river : RiverConfig) (seed : Z)
    (track : list vec3) (g0 : rng_state) :
  valid_config river ->
  buffers_fit river track ->
  num_contours river <= 8 ->
  8 <= Z.of_nat (length track) * num_contours river ->
  1 <= Z.of_nat (length track) ->
  exists b g,
    generate river seed track g0 = Done (b, g) /\
    Forall (fun v => norm v = Vec3 0 1 0 /\ tangent v = Vec4 1 0 0 1) (river_verts b).
Proof.
  intros Hvalid Hfit Hcontours Hverts Hseg.
  set (n := num_contours river). set (S := Z.of_nat (length track)).
  pose proof (n_ge_2 river Hvalid) as Hn. fold n in Hn.
  pose proof (r_range river track Hvalid Hfit Hseg) as Hr. fold n in Hr.
  exists (generated_buffers river seed track), (row_rng river seed S).
  split; [apply generate_done; assumption |].
  pose proof (loop_state_final river seed track Hvalid Hfit Hseg) as Hfinal.
  cbv zeta in Hfinal. fold n S in Hfinal.
  destruct Hfinal as (Hrows & _ & Hblen & _ & Hframe & Hrlen & Hbefore & Hl & Hr').
  pose proof (loop_state_flat river seed track S) as Hflat.
  unfold generated_buffers. cbn [river_verts]. fold S.
  set (B := g_bank_verts (loop_state river seed track S)) in *.
  set (R := g_river_verts (loop_state river seed track S)) in *.
  assert (Hbank : forall k, 0 <= k < S * n -> flat (at_ B k))
    by (intros k Hk; apply at_Forall; [exact Hflat | lia]).
  assert (Hbb : forall k, 0 <= k < S * n ->
            flat (at_ (bank_before_close river seed track) k)).
  { intros k Hk. apply at_Forall; [| rewrite (rows_length _ _ _ _ _ Hrows); fold n S; lia].
    unfold bank_before_close, pre_close.
    assert (Hrow : Forall flat (g_bank_verts
              (emit_bank_row river (track_position_at river track (S - 1))
                 (track_normal_at track (S - 1)) (texture_v_at river S (S - 1))
                 (loop_state river seed track (S - 1))))).
    { rewrite emit_bank_row_eq. cbn [g_bank_verts].
      apply Forall_app. split; [apply loop_state_flat |].
      apply Forall_fmap, Forall_forall. intros j _. split; reflexivity. }
    fold S. destruct (0 <? S - 1); [| exact Hrow].
    unfold correct_row.
    apply (for_range_preserves (fun s => Forall flat (g_bank_verts s)));
      [| exact Hrow].
    intros j s Hs. unfold correct_vertex. cbv zeta.
    destruct (Qle_bool _ 0); [apply store_pos_flat; exact Hs | exact Hs]. }
  assert (Hpair : forall k, 0 <= k < S -> flat (at_ R (2 * k)) /\ flat (at_ R (2 * k + 1))).
  { intros k Hk. destruct (decide (k = S - 1)) as [-> | Hne].
    - rewrite Hl, Hr'. split; apply (Hbank _); nia.
    - destruct (Hbefore k ltac:(lia)) as [-> ->]. split; apply (Hbb _); nia. }
  apply Forall_lookup. intros idx v Hv.
  assert (Hidx : (idx < length R)%nat) by (apply lookup_lt_is_Some; eauto).
  assert (Hat : v = at_ R (Z.of_nat idx)).
  { unfold at_. rewrite Nat2Z.id. symmetry. apply list_lookup_total_correct. exact Hv. }
  subst v.
  pose proof (Z.div_mod (Z.of_nat idx) 2 ltac:(lia)) as Hdiv.
  pose proof (Z.mod_pos_bound (Z.of_nat idx) 2 ltac:(lia)) as Hmod.
  destruct (Hpair (Z.of_nat idx / 2) ltac:(lia)) as [He Ho].
  destruct (Z.eq_dec (Z.of_nat idx mod 2) 0) as [Hm | Hm].
  - replace (Z.of_nat idx) with (2 * (Z.of_nat idx / 2)) by lia. exact He.
  - replace (Z.of_nat idx) with (2 * (Z.of_nat idx / 2) + 1) by lia. exact Ho.
Qed.

Lemma river_vertices_flat_witness :
  exists b g,
    generate (Ext := example_externals) river8 7 track4 0 = Done (b, g) /\
    Forall (fun v => norm v = Vec3 0 1 0 /\ tangent v = Vec4 1 0 0 1) (river_verts b).
Proof.
  assert (Hvalid : valid_config river8) by (vm_compute; intuition discriminate).
  assert (Hfit : buffers_fit river8 track4) by (vm_compute; discriminate).
  assert (Hseg : 1 <= Z.of_nat (length track4)) by (vm_compute; discriminate).
  assert (Hcontours : num_contours river8 <= 8) by (vm_compute; discriminate).
  assert (Hverts : 8 <= Z.of_nat (length track4) * num_contours river8)
    by (vm_compute; discriminate).
  exact (river_vertices_flat (Ext := example_externals) river8 7 track4 0
           Hvalid Hfit Hcontours Hverts Hseg).
Defined.

(** ** Indices that do not fit an [unsigned short] *)

Lemma last_bank_quad_index n r S :
  3 <= n -> 2 <= S -> 0 <= r < n - 1 ->
  exists x, x ∈ spec_bank_indices n r S /\ S * n - 2 <= x.
Proof.
  intros Hn HS Hr.
  set (j := if decide (r = n - 2) then n - 3 else n - 2).
  assert (Hj : 0 <= j < n - 1 /\ j <> r /\ n - 3 <= j)
    by (unfold j; destruct (decide (r = n - 2)); lia).
  exists ((S - 2) * n + j + n + 1). split; [| nia].
  unfold spec_bank_indices. apply list_elem_of_bind.
  exists (S - 2, j). split.
  - cbn [fst snd]. unfold quad_triangles.
    rewrite !elem_of_cons. do 5 right. left. lia.
  - apply elem_of_bank_quads. lia.
Qed.

(** X10.  The index vectors hold [unsigned short]s and line 219 stores without
    a check: with three to eight contours, at least two samples and at least
    65538 bank vertices, some index of the bank mesh is stored modulo 65536
    and refers to another vertex than the one of its quad.  Generation still
    passes its four count assertions. *)
Theorem bank_indices_truncated `{Ext : Externals} (river : RiverConfig) (seed : Z)
    (track : list vec3) (g0 : rng_state) :
  valid_config river ->
  buffers_fit river track ->
  num_contours river <= 8 ->
  3 <= num_contours river ->
  2 <= Z.of_nat (length track) ->
  65538 <= Z.of_nat (length track) * num_contours river ->
  exists b g,
    generate river seed track g0 = Done (b, g) /\
    exists k x,
      spec_bank_indices (num_contours river) (river_index river)
                        (Z.of_nat (length track)) !! k = Some x /\
      bank_indices b !! k = Some (x mod 65536) /\
      x mod 65536 <> x.
Proof.
  intros Hvalid Hfit Hcontours Hn HS Hbig.
  assert (Hseg : 1 <= Z.of_nat (length track)) by lia.
  assert (Hverts : 8 <= Z.of_nat (length track) * num_contours river) by lia.
  exists (generated_buffers river seed track),
         (row_rng river seed (Z.of_nat (length track))).
  split; [apply generate_done; assumption |].
  destruct Hvalid as [_ Hr].
  destruct (last_bank_quad_index (num_contours river) (river_index river)
              (Z.of_nat (length track)) Hn HS Hr) as (x & Hx & Hlarge).
  apply list_elem_of_lookup in Hx. destruct Hx as [k Hk].
  exists k, x. split; [exact Hk |]. split.
  - unfold generated_buffers. cbn [bank_indices].
    rewrite list_lookup_fmap, Hk. reflexivity.
  - pose proof (Z.mod_pos_bound x 65536 ltac:(lia)). lia.
Qed.

Lemma bank_indices_truncated_witness :
  exists b g,
    generate (Ext := example_externals) river8 7 long_track 0 = Done (b, g) /\
    exists k x,
      spec_bank_indices (num_contours river8) (river_index river8)
                        (Z.of_nat (length long_track)) !! k = Some x /\
      bank_indices b !! k = Some (x mod 65536) /\
      x mod 65536 <> x.
Proof.
  assert (Hvalid : valid_config river8) by (vm_compute; intuition discriminate).
  assert (Hfit : buffers_fit river8 long_track) by (vm_compute; discriminate).
  assert (Hn : 3 <= num_contours river8) by (vm_compute; discriminate).
  assert (HS : 2 <= Z.of_nat (length long_track)) by (vm_compute; discriminate).
  assert (Hbig : 65538 <= Z.of_nat (length long_track) * num_contours river8)
    by (vm_compute; discriminate).
  assert (Hcontours : num_contours river8 <= 8) by (vm_compute; discriminate).
  exact (bank_indices_truncated (Ext := example_externals) river8 7 long_track 0
           Hvalid Hfit Hcontours Hn HS Hbig).
Defined.

(** ** A track of one sample *)

(** X11.  With eight contours, a track of one sample passes every assertion
    and gives vertices without a triangle: two river vertices, one row of
    bank vertices, and two empty index buffers.  The one track delta of line
    135 is the zero vector: the side direction of the row is [Normalized] of
    a vector of length zero. *)
Theorem single_sample_track `{Ext : Externals} (river : RiverConfig) (seed : Z)
    (p : vec3) (g0 : rng_state) :
  valid_config river ->
  buffers_fit river [p] ->
  num_contours river = 8 ->
  exists b g,
    generate river seed [p] g0 = Done (b, g) /\
    river_indices b = [] /\ bank_indices b = [] /\
    length (river_verts b) = 2%nat /\
    length (bank_verts b) = length (banks river) /\
    vec3_eq (track_delta_at [p] 0) (Vec3 0 0 0).
Proof.
  intros Hvalid Hfit Hn8.
  assert (Hseg : 1 <= Z.of_nat (length [p])) by (simpl; lia).
  exists (generated_buffers river seed [p]), (row_rng river seed (Z.of_nat (length [p]))).
  split; [apply generate_done; [assumption | assumption | assumption | lia |
                                rewrite Hn8; reflexivity] |].
  pose proof (loop_state_final river seed [p] Hvalid Hfit Hseg) as Hfinal.
  cbv zeta in Hfinal. destruct Hfinal as (_ & _ & Hblen & _ & _ & Hrlen & _).
  unfold generated_buffers. cbn [river_verts river_indices bank_verts bank_indices].
  unfold with_normals_tangents. rewrite length_imap.
  split; [reflexivity |]. split; [reflexivity |].
  unfold num_contours in Hblen.
  assert (H1 : Z.of_nat (length [p]) = 1) by reflexivity.
  split; [lia |]. split; [lia |].
  assert (Hd : track_delta_at [p] 0 = vsub p p) by reflexivity.
  rewrite Hd. unfold vec3_eq, vsub. cbn [v3x v3y v3z].
  repeat split; ring.
Qed.

Lemma single_sample_track_witness :
  exists b g,
    generate (Ext := example_externals) river8 7 [Vec3 0 0 0] 0 = Done (b, g) /\
    river_indices b = [] /\ bank_indices b = [] /\
    length (river_verts b) = 2%nat /\
    length (bank_verts b) = length (banks river8) /\
    vec3_eq (track_delta_at [Vec3 0 0 0] 0) (Vec3 0 0 0).
Proof.
  assert (Hvalid : valid_config river8) by (vm_compute; intuition discriminate).
  assert (Hfit : buffers_fit river8 [Vec3 0 0 0]) by (vm_compute; discriminate).
  assert (Hn8 : num_contours river8 = 8) by reflexivity.
  exact (single_sample_track (Ext := example_externals) river8 7 (Vec3 0 0 0) 0
           Hvalid Hfit Hn8).
Defined.

(** ** The component: where the meshes go and what a call leaves alone *)

Section ComponentMeshes.
Context `{Ext : Externals}.

(** The world a regeneration that runs to its end leaves. *)
Lemma CreateRiverMesh_inv entity w w' :
  CreateRiverMesh entity w = Done w' ->
  exists d bufs g,
    w_river_data w !! entity = Some d /\
    generate_for d w = Done (bufs, g) /\
    is_Some (w_render_mesh w !! entity) /\
    w_rng w' = g /\ w_config w' = w_config w /\ w_rails w' = w_rails w /\
    let render := <[entity := river_render (w_config w) bufs]> (w_render_mesh w) in
    match bank d with
    | Some b =>
        w_next_entity w' = w_next_entity w /\
        w_river_data w' = w_river_data w /\
        w_render_mesh w' = <[b := bank_render bufs]> render
    | None =>
        w_next_entity w' = Datatypes.S (w_next_entity w) /\
        w_river_data w' =
        <[entity := MkRiverData (rail_name d) (random_seed d)
                                (Some (w_next_entity w))]> (w_river_data w) /\
        w_render_mesh w' =
        <[w_next_entity w := bank_render bufs]>
          (add_entity (w_next_entity w) default_RenderMeshData render)
    end.
Proof.
  unfold CreateRiverMesh. intros H.
  apply bind_Done_inv in H. destruct H as (d & Hd & H).
  apply deref_Done_inv in Hd.
  apply bind_Done_inv in H. destruct H as ([bufs g] & Hgen & H).
  apply bind_Done_inv in H. destruct H as (rmd & Hrmd & H).
  apply deref_Done_inv in Hrmd.
  exists d, bufs, g. split; [exact Hd |]. split; [exact Hgen |].
  split; [eauto |].
  destruct (bank d) as [b |] eqn:Hbank.
  - cbn [w_river_data w_render_mesh] in H.
    apply bind_Done_inv in H. destruct H as (d2 & Hd2 & H).
    apply deref_Done_inv in Hd2. rewrite Hd in Hd2. injection Hd2 as <-.
    apply bind_Done_inv in H. destruct H as (b2 & Hb2 & H).
    apply deref_Done_inv in Hb2. rewrite Hbank in Hb2. injection Hb2 as <-.
    apply bind_Done_inv in H. destruct H as (rmd2 & _ & H).
    injection H as <-. cbn. repeat split; reflexivity.
  - cbn [w_river_data w_render_mesh] in H.
    apply bind_Done_inv in H. destruct H as (d2 & Hd2 & H).
    apply deref_Done_inv in Hd2. rewrite lookup_insert_eq in Hd2. injection Hd2 as <-.
    apply bind_Done_inv in H. destruct H as (b2 & Hb2 & H).
    apply deref_Done_inv in Hb2. cbn in Hb2. injection Hb2 as <-.
    apply bind_Done_inv in H. destruct H as (rmd2 & _ & H).
    injection H as <-. cbn. repeat split; reflexivity.
Qed.

Lemma add_entity_lookup_ne {A : Type} e e' (dflt : A) (m : gmap nat A) :
  e <> e' -> add_entity e dflt m !! e' = m !! e'.
Proof.
  intros Hne. unfold add_entity. destruct (m !! e); [reflexivity |].
  apply lookup_insert_ne. exact Hne.
Qed.

(** The meshes after a regeneration, for a river that is not its own bank. *)
Lemma CreateRiverMesh_meshes entity w w' :
  CreateRiverMesh entity w = Done w' ->
  bank_of entity w <> Some entity ->
  (entity < w_next_entity w)%nat ->
  exists d bufs b,
    w_river_data w !! entity = Some d /\
    generate_for d w = Done (bufs, w_rng w') /\
    bank_of entity w' = Some b /\
    b = default (w_next_entity w) (bank d) /\
    w_render_mesh w' !! entity = Some (river_render (w_config w) bufs) /\
    w_render_mesh w' !! b = Some (bank_render bufs).
Proof.
  intros H Hself Hlive. apply CreateRiverMesh_inv in H.
  destruct H as (d & bufs & g & Hd & Hgen & _ & Hrng & _ & _ & H).
  cbv zeta in H. unfold bank_of in *. rewrite Hd in Hself. cbn in Hself.
  exists d, bufs, (default (w_next_entity w) (bank d)).
  split; [exact Hd |]. rewrite Hrng. split; [exact Hgen |].
  destruct (bank d) as [b |] eqn:Hbank; destruct H as (_ & Hdata & Hrender);
    rewrite Hdata, Hrender; cbn [default].
  - rewrite Hd. cbn. rewrite Hbank.
    split; [reflexivity |]. split; [reflexivity |].
    rewrite lookup_insert_ne by congruence.
    rewrite !lookup_insert_eq. split; reflexivity.
  - rewrite lookup_insert_eq. cbn.
    split; [reflexivity |]. split; [reflexivity |].
    rewrite lookup_insert_ne by lia.
    rewrite add_entity_lookup_ne by lia.
    rewrite !lookup_insert_eq. split; reflexivity.
Qed.

(** What a regeneration leaves alone. *)
Lemma CreateRiverMesh_others entity w w' :
  CreateRiverMesh entity w = Done w' ->
  w_config w' = w_config w /\ w_rails w' = w_rails w /\
  (w_next_entity w <= w_next_entity w')%nat /\
  (forall e, e <> entity -> w_river_data w' !! e = w_river_data w !! e) /\
  (exists d d',
     w_river_data w !! entity = Some d /\ w_river_data w' !! entity = Some d' /\
     rail_name d' = rail_name d /\ random_seed d' = random_seed d /\
     (forall b, bank d = Some b -> bank d' = Some b)) /\
  (forall e, e <> entity -> bank_of entity w' <> Some e ->
     w_render_mesh w' !! e = w_render_mesh w !! e).
Proof.
  intros H. apply CreateRiverMesh_inv in H.
  destruct H as (d & bufs & g & Hd & _ & _ & _ & Hcfg & Hrails & H).
  cbv zeta in H. split; [exact Hcfg |]. split; [exact Hrails |].
  unfold bank_of.
  destruct (bank d) as [b |] eqn:Hbank; destruct H as (Hnext & Hdata & Hrender);
    rewrite Hnext, Hdata, Hrender.
  - split; [lia |]. split; [reflexivity |]. split.
    + exists d, d. rewrite Hd. repeat split; auto.
    + intros e He Hb. rewrite Hd in Hb. cbn in Hb. rewrite Hbank in Hb.
      rewrite lookup_insert_ne by congruence.
      rewrite lookup_insert_ne by congruence. reflexivity.
  - split; [lia |]. split; [| split].
    + intros e He. apply lookup_insert_ne. congruence.
    + exists d, (MkRiverData (rail_name d) (random_seed d) (Some (w_next_entity w))).
      rewrite lookup_insert_eq. repeat split; auto. intros b Hb. congruence.
    + intros e He Hb. rewrite lookup_insert_eq in Hb. cbn in Hb.
      rewrite lookup_insert_ne by congruence.
      rewrite add_entity_lookup_ne by congruence.
      rewrite lookup_insert_ne by congruence. reflexivity.
Qed.

End ComponentMeshes.

(** X13.  A regeneration that runs to its end leaves on the river entity the
    river mesh (the river vertices and indices, the configured material and
    shader) and on the bank entity the bank mesh (the bank vertices and
    indices, the ground material and the shader [shaders/textured_opaque]),
    both never culled and in the opaque pass, made from the buffers that
    [generate] gives for the configuration, the seed of the river data and
    the positions of its rail.  The river must be a live entity that is not
    its own bank. *)
Theorem meshes_installed `{Ext : Externals} (entity : nat) (w w' : World) :
  CreateRiverMesh entity w = Done w' ->
  bank_of entity w <> Some entity ->
  (entity < w_next_entity w)%nat ->
  exists d bufs b,
    w_river_data w !! entity = Some d /\
    generate (w_config w) (random_seed d)
             (w_rails w (rail_name d) (spline_stepsize (w_config w))) (w_rng w)
    = Done (bufs, w_rng w') /\
    bank_of entity w' = Some b /\
    w_render_mesh w' !! entity =
    Some (MkRenderMeshData (Some (shader (w_config w)))
            (Some (MkMesh (river_verts bufs) (river_indices bufs)
                          (material (w_config w))))
            true (Z.shiftl 1 RenderPass_kOpaque)) /\
    w_render_mesh w' !! b =
    Some (MkRenderMeshData (Some "shaders/textured_opaque")
            (Some (MkMesh (bank_verts bufs) (bank_indices bufs)
                          "materials/ground_material.fplmat"))
            true (Z.shiftl 1 RenderPass_kOpaque)).
Proof.
  intros H Hself Hlive.
  destruct (CreateRiverMesh_meshes entity w w' H Hself Hlive)
    as (d & bufs & b & Hd & Hgen & Hb & _ & Hriver & Hbank).
  exists d, bufs, b. repeat split; assumption.
Qed.

Lemma meshes_installed_witness :
  exists d bufs b,
    w_river_data (river_world river8 track4) !! 0%nat = Some d /\
    generate (Ext := example_externals) (w_config (river_world river8 track4))
             (random_seed d)
             (w_rails (river_world river8 track4) (rail_name d)
                      (spline_stepsize (w_config (river_world river8 track4))))
             (w_rng (river_world river8 track4))
    = Done (bufs, w_rng generated_once) /\
    bank_of (Ext := example_externals) 0 generated_once = Some b /\
    w_render_mesh generated_once !! 0%nat =
    Some (MkRenderMeshData (Some (shader (w_config (river_world river8 track4))))
            (Some (MkMesh (river_verts bufs) (river_indices bufs)
                          (material (w_config (river_world river8 track4)))))
            true (Z.shiftl 1 (RenderPass_kOpaque (Externals := example_externals)))) /\
    w_render_mesh generated_once !! b =
    Some (MkRenderMeshData (Some "shaders/textured_opaque")
            (Some (MkMesh (bank_verts bufs) (bank_indices bufs)
                          "materials/ground_material.fplmat"))
            true (Z.shiftl 1 (RenderPass_kOpaque (Externals := example_externals)))).
Proof.
  assert (Hfirst : CreateRiverMesh (Ext := example_externals) 0
                     (river_world river8 track4) = Done generated_once)
    by (vm_compute; reflexivity).
  assert (Hself : bank_of (Ext := example_externals) 0 (river_world river8 track4)
                  <> Some 0%nat) by (vm_compute; discriminate).
  assert (Hlive : (0 < w_next_entity (river_world river8 track4))%nat)
    by (vm_compute; lia).
  exact (meshes_installed (Ext := example_externals) 0 (river_world river8 track4)
           generated_once Hfirst Hself Hlive).
Defined.

(** X14.  A regeneration that runs to its end keeps the configuration and
    the rails, never lowers the allocation counter, keeps the river data of
    every other entity, keeps the rail name, the seed and an existing bank
    reference of its own river data, and keeps the render data of every
    entity but the river and its bank. *)
Theorem regeneration_frame `{Ext : Externals} (entity : nat) (w w' : World) :
  CreateRiverMesh entity w = Done w' ->
  w_config w' = w_config w /\ w_rails w' = w_rails w /\
  (w_next_entity w <= w_next_entity w')%nat /\
  (forall e, e <> entity -> w_river_data w' !! e = w_river_data w !! e) /\
  (exists d d',
     w_river_data w !! entity = Some d /\ w_river_data w' !! entity = Some d' /\
     rail_name d' = rail_name d /\ random_seed d' = random_seed d /\
     (forall b, bank d = Some b -> bank d' = Some b)) /\
  (forall e, e <> entity -> bank_of entity w' <> Some e ->
     w_render_mesh w' !! e = w_render_mesh w !! e).
Proof. apply CreateRiverMesh_others. Qed.

Lemma regeneration_frame_witness :
  w_config generated_once = w_config (river_world river8 track4) /\
  w_rails generated_once = w_rails (river_world river8 track4) /\
  (w_next_entity (river_world river8 track4) <= w_next_entity generated_once)%nat /\
  (forall e, e <> 0%nat ->
     w_river_data generated_once !! e = w_river_data (river_world river8 track4) !! e) /\
  (exists d d',
     w_river_data (river_world river8 track4) !! 0%nat = Some d /\
     w_river_data generated_once !! 0%nat = Some d' /\
     rail_name d' = rail_name d /\ random_seed d' = random_seed d /\
     (forall b, bank d = Some b -> bank d' = Some b)) /\
  (forall e, e <> 0%nat -> bank_of (Ext := example_externals) 0 generated_once <> Some e ->
     w_render_mesh generated_once !! e =
     w_render_mesh (river_world river8 track4) !! e).
Proof.
  assert (Hfirst : CreateRiverMesh (Ext := example_externals) 0
                     (river_world river8 track4) = Done generated_once)
    by (vm_compute; reflexivity).
  exact (regeneration_frame (Ext := example_externals) 0 (river_world river8 track4)
           generated_once Hfirst).
Defined.

(** ** Construction and export, from the side of the data *)

Section Construction.
Context `{Ext : Externals}.

Lemma AddFromRawData_inv entity river_def w w' :
  AddFromRawData entity river_def w = Done w' ->
  exists name,
    def_rail_name river_def = Some name /\
    w_river_data w' !! entity =
    Some (MkRiverData (c_str name) (def_random_seed river_def)
                      (Some (default (w_next_entity w) (bank_of entity w)))) /\
    w_next_entity w' =
    match bank_of entity w with
    | Some _ => w_next_entity w
    | None => Datatypes.S (w_next_entity w)
    end /\
    w_children w' =
    match bank_of entity w with
    | Some _ => w_children w
    | None => (w_next_entity w, entity) :: w_children w
    end.
Proof.
  unfold AddFromRawData. intros H.
  apply bind_Done_inv in H. destruct H as (old & Hold & H).
  apply deref_Done_inv in Hold.
  apply bind_Done_inv in H. destruct H as (name & Hname & H).
  apply deref_Done_inv in Hname.
  exists name. split; [exact Hname |].
  assert (Hbank : bank old = bank_of entity w).
  { unfold bank_of, add_entity in *.
    destruct (w_river_data w !! entity) as [d |] eqn:Hd.
    - rewrite Hd in Hold. injection Hold as <-. reflexivity.
    - rewrite lookup_insert_eq in Hold. injection Hold as <-. reflexivity. }
  apply CreateRiverMesh_Done in H.
  destruct H as (d & Hd & _ & _ & H). cbn in Hd.
  rewrite lookup_insert_eq in Hd. injection Hd as <-. cbn in H.
  rewrite Hbank in H.
  destruct (bank_of entity w) as [b |]; destruct H as (Hdata & Hnext & Hchildren & _);
    rewrite Hdata, Hnext, Hchildren; cbn; rewrite lookup_insert_eq, ?Hbank;
    repeat split; reflexivity.
Qed.

End Construction.

(** X15.  Construction that runs to its end stores the name of the definition
    up to its first NUL and the seed of the definition.  An entity that had
    river data with a bank entity keeps that bank and nothing is allocated;
    otherwise exactly one entity is allocated, and it becomes the bank and a
    child of the river. *)
Theorem construction_data `{Ext : Externals} (entity : nat) (river_def : RiverDef)
    (w w' : World) :
  AddFromRawData entity river_def w = Done w' ->
  exists name b,
    def_rail_name river_def = Some name /\
    w_river_data w' !! entity =
    Some (MkRiverData (c_str name) (def_random_seed river_def) (Some b)) /\
    match bank_of entity w with
    | Some b0 =>
        b = b0 /\ w_next_entity w' = w_next_entity w /\ w_children w' = w_children w
    | None =>
        b = w_next_entity w /\ w_next_entity w' = Datatypes.S (w_next_entity w) /\
        w_children w' = (b, entity) :: w_children w
    end.
Proof.
  intros H. apply AddFromRawData_inv in H.
  destruct H as (name & Hname & Hdata & Hnext & Hchildren).
  exists name, (default (w_next_entity w) (bank_of entity w)).
  split; [exact Hname |]. split; [exact Hdata |].
  destruct (bank_of entity w); cbn; auto.
Qed.

Lemma construction_data_witness :
  exists name b,
    def_rail_name (MkRiverDef (Some "rail") 7) = Some name /\
    w_river_data constructed !! 0%nat =
    Some (MkRiverData (c_str name) (def_random_seed (MkRiverDef (Some "rail") 7))
                      (Some b)) /\
    match bank_of (Ext := example_externals) 0 (example_world river8 track4) with
    | Some b0 =>
        b = b0 /\
        w_next_entity constructed = w_next_entity (example_world river8 track4) /\
        w_children constructed = w_children (example_world river8 track4)
    | None =>
        b = w_next_entity (example_world river8 track4) /\
        w_next_entity constructed =
        Datatypes.S (w_next_entity (example_world river8 track4)) /\
        w_children constructed =
        (b, 0%nat) :: w_children (example_world river8 track4)
    end.
Proof.
  assert (H : AddFromRawData (Ext := example_externals) 0 (MkRiverDef (Some "rail") 7)
                (example_world river8 track4) = Done constructed)
    by (vm_compute; reflexivity).
  exact (construction_data (Ext := example_externals) 0 (MkRiverDef (Some "rail") 7)
           (example_world river8 track4) constructed H).
Defined.

(** X16.  What export writes for river data with a non-empty name constructs,
    on any entity of any world where the construction runs to its end, river
    data with the same name and seed, provided the name is a C string.  The
    bank entity is not part of the exported definition. *)
Theorem exported_data_reimports `{Ext : Externals} (entity entity' : nat)
    (w w2 w3 : World) (d : RiverData) (river_def : RiverDef) :
  w_river_data w !! entity = Some d ->
  rail_name d <> EmptyString ->
  c_str (rail_name d) = rail_name d ->
  ExportRawData entity w = Some river_def ->
  AddFromRawData entity' river_def w2 = Done w3 ->
  river_def = MkRiverDef (Some (rail_name d)) (random_seed d) /\
  exists d',
    w_river_data w3 !! entity' = Some d' /\
    rail_name d' = rail_name d /\ random_seed d' = random_seed d.
Proof.
  intros Hd Hne Hc Hexport Hadd.
  unfold ExportRawData in Hexport. rewrite Hd in Hexport.
  destruct (String.eqb (rail_name d) "") eqn:E;
    [apply String.eqb_eq in E; contradiction |].
  injection Hexport as <-. split; [reflexivity |].
  apply AddFromRawData_inv in Hadd.
  destruct Hadd as (name & Hname & Hdata & _).
  cbn in Hname. injection Hname as <-.
  eexists. split; [exact Hdata |]. cbn. split; [exact Hc | reflexivity].
Qed.

Lemma exported_data_reimports_witness :
  MkRiverDef (Some "rail") 7 =
  MkRiverDef (Some (rail_name (MkRiverData "rail" 7 (Some 1%nat))))
             (random_seed (MkRiverData "rail" 7 (Some 1%nat))) /\
  exists d',
    w_river_data constructed !! 0%nat = Some d' /\
    rail_name d' = rail_name (MkRiverData "rail" 7 (Some 1%nat)) /\
    random_seed d' = random_seed (MkRiverData "rail" 7 (Some 1%nat)).
Proof.
  assert (Hd : w_river_data generated_once !! 0%nat =
               Some (MkRiverData "rail" 7 (Some 1%nat)))
    by (vm_compute; reflexivity).
  assert (Hne : rail_name (MkRiverData "rail" 7 (Some 1%nat)) <> EmptyString)
    by discriminate.
  assert (Hc : c_str (rail_name (MkRiverData "rail" 7 (Some 1%nat))) =
               rail_name (MkRiverData "rail" 7 (Some 1%nat)))
    by reflexivity.
  assert (Hexport : ExportRawData (Ext := example_externals) 0 generated_once =
                    Some (MkRiverDef (Some "rail") 7))
    by (vm_compute; reflexivity).
  assert (Hadd : AddFromRawData (Ext := example_externals) 0
                   (MkRiverDef (Some "rail") 7) (example_world river8 track4) =
                 Done constructed)
    by (vm_compute; reflexivity).
  exact (exported_data_reimports (Ext := example_externals) 0 0 generated_once
           (example_world river8 track4) constructed
           (MkRiverData "rail" 7 (Some 1%nat)) (MkRiverDef (Some "rail") 7)
           Hd Hne Hc Hexport Hadd).
Defined.

(** ** [OnEvent]: the rivers follow the rails *)

Section Events.
Context `{Ext : Externals}.

Lemma CreateRiverMesh_entities_ok entity w w' :
  entities_ok w -> CreateRiverMesh entity w = Done w' -> entities_ok w'.
Proof.
  intros [Hlive Hblive Hnot Hown] H. apply CreateRiverMesh_inv in H.
  destruct H as (d & bufs & g & Hd & _ & _ & _ & _ & _ & H). cbv zeta in H.
  destruct (bank d) as [b |] eqn:Hbank; destruct H as (Hnext & Hdata & _).
  - split; rewrite ?Hnext, Hdata; assumption.
  - pose proof (Hlive _ _ Hd) as Hentity.
    assert (Hlookup : forall r d',
              w_river_data w' !! r = Some d' ->
              (r = entity /\
               d' = MkRiverData (rail_name d) (random_seed d) (Some (w_next_entity w))) \/
              (r <> entity /\ w_river_data w !! r = Some d')).
    { intros r d' Hr. rewrite Hdata in Hr. apply lookup_insert_Some in Hr.
      destruct Hr as [[<- <-] | [Hne Hr]]; [left | right]; auto. }
    split; rewrite ?Hnext.
    + intros r d' Hr. apply Hlookup in Hr. destruct Hr as [[-> _] | [_ Hr]].
      * lia.
      * specialize (Hlive _ _ Hr). lia.
    + intros r d' b Hr Hb. apply Hlookup in Hr. destruct Hr as [[-> ->] | [_ Hr]].
      * cbn in Hb. injection Hb as <-. lia.
      * specialize (Hblive _ _ _ Hr Hb). lia.
    + intros r d' b Hr Hb. apply Hlookup in Hr. destruct Hr as [[-> ->] | [_ Hr]].
      * cbn in Hb. injection Hb as <-. rewrite Hdata.
        rewrite lookup_insert_ne by lia.
        destruct (w_river_data w !! w_next_entity w) as [d2 |] eqn:Hd2;
          [| reflexivity].
        specialize (Hlive _ _ Hd2). lia.
      * rewrite Hdata. specialize (Hnot _ _ _ Hr Hb).
        rewrite lookup_insert_ne; [exact Hnot |].
        intros <-. congruence.
    + intros r r' d1 d2 b Hr Hr' Hb Hb'.
      apply Hlookup in Hr. apply Hlookup in Hr'.
      destruct Hr as [[-> ->] | [Hne Hr]]; destruct Hr' as [[-> ->] | [Hne' Hr']].
      * reflexivity.
      * cbn in Hb. injection Hb as <-. specialize (Hblive _ _ _ Hr' Hb'). lia.
      * cbn in Hb'. injection Hb' as <-. specialize (Hblive _ _ _ Hr Hb). lia.
      * exact (Hown _ _ _ _ _ Hr Hr' Hb Hb').
Qed.

(** The loop of lines 316-318 over rivers that are pairwise distinct. *)
Lemma regenerate_all_spec pool :
  forall w w',
    entities_ok w -> NoDup pool -> regenerate_all pool w = Done w' ->
    entities_ok w' /\
    w_config w' = w_config w /\ w_rails w' = w_rails w /\
    (forall r d, w_river_data w !! r = Some d ->
       exists d', w_river_data w' !! r = Some d' /\
                  rail_name d' = rail_name d /\ random_seed d' = random_seed d /\
                  (forall b, bank d = Some b -> bank d' = Some b)) /\
    (forall e, e ∉ pool -> w_river_data w' !! e = w_river_data w !! e) /\
    (forall e, e ∉ pool -> (forall r, r ∈ pool -> bank_of r w' <> Some e) ->
       w_render_mesh w' !! e = w_render_mesh w !! e) /\
    (forall r, r ∈ pool ->
       exists d bufs g b,
         w_river_data w !! r = Some d /\
         generate_for d w = Done (bufs, g) /\
         bank_of r w' = Some b /\
         w_render_mesh w' !! r = Some (river_render (w_config w) bufs) /\
         w_render_mesh w' !! b = Some (bank_render bufs)).
Proof.
  induction pool as [| r0 rest IH]; intros w w' Hok Hnodup H.
  - cbn in H. injection H as <-.
    split; [exact Hok |]. split; [reflexivity |]. split; [reflexivity |].
    split; [intros r d Hd; exists d; auto |].
    split; [reflexivity |]. split; [reflexivity |].
    intros r Hr. apply elem_of_nil in Hr. contradiction.
  - cbn [regenerate_all] in H.
    apply bind_Done_inv in H. destruct H as (w1 & Hfirst & Hrest).
    apply NoDup_cons in Hnodup. destruct Hnodup as [Hr0 Hnodup].
    pose proof (CreateRiverMesh_entities_ok _ _ _ Hok Hfirst) as Hok1.
    destruct (IH w1 w' Hok1 Hnodup Hrest)
      as (Hok' & Hcfg' & Hrails' & Hkeep' & Hdata' & Hrender' & Hmesh').
    destruct (CreateRiverMesh_others _ _ _ Hfirst)
      as (Hcfg1 & Hrails1 & _ & Hdata1 & (d0 & d0' & Hd0 & Hd0' & Hname0 & Hseed0 & Hbank0)
          & Hrender1).
    assert (Hself : bank_of r0 w <> Some r0).
    { unfold bank_of. rewrite Hd0. cbn. intros Hb.
      pose proof (ok_bank_not_river w Hok _ _ _ Hd0 Hb). congruence. }
    destruct (CreateRiverMesh_meshes _ _ _ Hfirst Hself (ok_river_live w Hok _ _ Hd0))
      as (d0_ & bufs0 & b0 & Hd0_ & Hgen0 & Hb0 & _ & Hriver0 & Hbankmesh0).
    rewrite Hd0 in Hd0_. injection Hd0_ as <-.
    assert (Hkeep : forall r d, w_river_data w !! r = Some d ->
              exists d', w_river_data w1 !! r = Some d' /\
                         rail_name d' = rail_name d /\ random_seed d' = random_seed d /\
                         (forall b, bank d = Some b -> bank d' = Some b)).
    { intros r d Hd. destruct (decide (r = r0)) as [-> | Hne].
      - rewrite Hd0 in Hd. injection Hd as <-. exists d0'. auto.
      - exists d. rewrite Hdata1 by exact Hne. auto. }
    (* the bank of [r0] stays its bank to the end *)
    assert (Hb0' : bank_of r0 w' = Some b0).
    { unfold bank_of in Hb0 |- *. rewrite Hd0' in Hb0. cbn in Hb0.
      destruct (Hkeep' _ _ Hd0') as (d0'' & Hd0'' & _ & _ & Hbank).
      rewrite Hd0''. cbn. apply Hbank. exact Hb0. }
    assert (Hrest_data : forall r, r ∈ rest -> is_Some (w_river_data w' !! r)).
    { intros r Hr. destruct (Hmesh' r Hr) as (d & _ & _ & _ & Hd & _).
      destruct (Hkeep' _ _ Hd) as (d' & Hd' & _). eauto. }
    assert (Hr0_data : is_Some (w_river_data w' !! r0)).
    { destruct (Hkeep' _ _ Hd0') as (d' & Hd' & _). eauto. }
    assert (Hnot_bank : forall r e, is_Some (w_river_data w' !! e) -> bank_of r w' <> Some e).
    { intros r e [de Hde] Hb. unfold bank_of in Hb.
      destruct (w_river_data w' !! r) as [dr |] eqn:Hdr; [| discriminate].
      cbn in Hb. pose proof (ok_bank_not_river w' Hok' _ _ _ Hdr Hb). congruence. }
    assert (Hb0_rest : b0 ∉ rest).
    { intros Hin. exact (Hnot_bank r0 b0 (Hrest_data _ Hin) Hb0'). }
    assert (Hb0_other : forall r, r ∈ rest -> bank_of r w' <> Some b0).
    { intros r Hr Hb. unfold bank_of in Hb, Hb0'.
      destruct (w_river_data w' !! r) as [dr |] eqn:Hdr; [| discriminate].
      destruct (w_river_data w' !! r0) as [dr0 |] eqn:Hdr0; [| discriminate].
      cbn in Hb, Hb0'.
      pose proof (ok_bank_own w' Hok' _ _ _ _ _ Hdr Hdr0 Hb Hb0') as ->.
      contradiction. }
    split; [exact Hok' |]. split; [congruence |]. split; [congruence |].
    split; [| split; [| split]].
    + intros r d Hd. destruct (Hkeep _ _ Hd) as (d1 & Hd1 & Hn1 & Hs1 & Hbk1).
      destruct (Hkeep' _ _ Hd1) as (d' & Hd' & Hn' & Hs' & Hbk').
      exists d'. split; [exact Hd' |]. split; [congruence |]. split; [congruence |].
      intros b Hb. apply Hbk', Hbk1, Hb.
    + intros e He. apply not_elem_of_cons in He. destruct He as [Hne He].
      rewrite Hdata' by exact He. apply Hdata1. exact Hne.
    + intros e He Hbanks. apply not_elem_of_cons in He. destruct He as [Hne He].
      rewrite Hrender'.
      * apply Hrender1; [exact Hne |].
        intros Hb. apply (Hbanks r0); [apply elem_of_cons; left; reflexivity |].
        rewrite Hb0'. rewrite Hb0 in Hb. exact Hb.
      * exact He.
      * intros r Hr. apply Hbanks. apply elem_of_cons. right. exact Hr.
    + intros r Hr. apply elem_of_cons in Hr. destruct Hr as [-> | Hr].
      * exists d0, bufs0, (w_rng w1), b0.
        split; [exact Hd0 |]. split; [exact Hgen0 |]. split; [exact Hb0' |].
        split.
        -- rewrite Hrender'; [exact Hriver0 | exact Hr0 |].
           intros r _. apply Hnot_bank. exact Hr0_data.
        -- rewrite Hrender'; [exact Hbankmesh0 | exact Hb0_rest | exact Hb0_other].
      * destruct (Hmesh' r Hr) as (d & bufs & g & b & Hd & Hgen & Hb & Hriver & Hbankmesh).
        assert (Hne : r <> r0) by (intros ->; contradiction).
        exists d, bufs, g, b.
        split; [rewrite <- Hdata1 by exact Hne; exact Hd |].
        split.
        { unfold generate_for in Hgen |- *. rewrite Hcfg1, Hrails1 in Hgen.
          exact Hgen. }
        split; [exact Hb |]. rewrite <- Hcfg1. split; assumption.
Qed.

End Events.

Section EventFacts.
Context `{Ext : Externals}.


End EventFacts.

Lemma two_rivers_ok : entities_ok (Ext := example_externals) two_rivers.
Proof.
  assert (Hdata : forall r d, w_river_data two_rivers !! r = Some d ->
            (r < 2)%nat /\ bank d = None).
  { intros r d Hd. cbn in Hd. apply lookup_insert_Some in Hd.
    destruct Hd as [[<- <-] | [_ Hd]]; [split; [lia | reflexivity] |].
    apply lookup_singleton_Some in Hd. destruct Hd as [<- <-].
    split; [lia | reflexivity]. }
  split.
  - intros r d Hd. apply Hdata in Hd. cbn. lia.
  - intros r d b Hd Hb. apply Hdata in Hd. destruct Hd. congruence.
  - intros r d b Hd Hb. apply Hdata in Hd. destruct Hd. congruence.
  - intros r r' d d' b Hd _ Hb. apply Hdata in Hd. destruct Hd. congruence.
Qed.

(** X17.  When the editor reports an update of an entity that has rail node
    data, every river of the component is regenerated: if the handler runs
    to its end, each river of the pool has a bank entity and carries the
    meshes made from the buffers [generate] gives for its own seed and rail
    name, in whatever order the pool is gone through and whatever the
    regenerations of the other rivers drew from the generator.  The rivers
    of the pool are pairwise distinct and the entities are as
    [entities_ok] says. *)
Theorem rail_update_regenerates_every_river `{Ext : Externals}
    (rail_node : nat -> bool) (pool : list nat) (updated r : nat) (d : RiverData)
    (w w' : World) :
  entities_ok w ->
  NoDup pool ->
  rail_node updated = true ->
  OnEvent rail_node pool
          (EventSinkUnion_EditorEvent EditorEventAction_EntityUpdated (Some updated)) w
  = Handled (Done w') ->
  r ∈ pool ->
  w_river_data w !! r = Some d ->
  exists bufs g b,
    generate (w_config w) (random_seed d)
             (w_rails w (rail_name d) (spline_stepsize (w_config w))) (w_rng w)
    = Done (bufs, g) /\
    bank_of r w' = Some b /\
    w_render_mesh w' !! r =
    Some (MkRenderMeshData (Some (shader (w_config w)))
            (Some (MkMesh (river_verts bufs) (river_indices bufs)
                          (material (w_config w))))
            true (Z.shiftl 1 RenderPass_kOpaque)) /\
    w_render_mesh w' !! b =
    Some (MkRenderMeshData (Some "shaders/textured_opaque")
            (Some (MkMesh (bank_verts bufs) (bank_indices bufs)
                          "materials/ground_material.fplmat"))
            true (Z.shiftl 1 RenderPass_kOpaque)).
Proof.
  intros Hok Hnodup Hnode H Hr Hd.
  cbn in H. rewrite Hnode in H. injection H as H.
  destruct (regenerate_all_spec pool w w' Hok Hnodup H)
    as (_ & _ & _ & _ & _ & _ & Hmesh).
  destruct (Hmesh r Hr) as (d_ & bufs & g & b & Hd_ & Hgen & Hb & Hriver & Hbank).
  rewrite Hd in Hd_. injection Hd_ as <-.
  exists bufs, g, b. repeat split; assumption.
Qed.

Lemma rail_update_regenerates_every_river_witness :
  exists bufs g b,
    generate (Ext := example_externals) (w_config two_rivers)
             (random_seed (MkRiverData "rail" 8 None))
             (w_rails two_rivers (rail_name (MkRiverData "rail" 8 None))
                      (spline_stepsize (w_config two_rivers)))
             (w_rng two_rivers)
    = Done (bufs, g) /\
    bank_of (Ext := example_externals) 1 two_rivers_updated = Some b /\
    w_render_mesh two_rivers_updated !! 1%nat =
    Some (MkRenderMeshData (Some (shader (w_config two_rivers)))
            (Some (MkMesh (river_verts bufs) (river_indices bufs)
                          (material (w_config two_rivers))))
            true (Z.shiftl 1 (RenderPass_kOpaque (Externals := example_externals)))) /\
    w_render_mesh two_rivers_updated !! b =
    Some (MkRenderMeshData (Some "shaders/textured_opaque")
            (Some (MkMesh (bank_verts bufs) (bank_indices bufs)
                          "materials/ground_material.fplmat"))
            true (Z.shiftl 1 (RenderPass_kOpaque (Externals := example_externals)))).
Proof.
  assert (Hnodup : NoDup [0%nat; 1%nat]) by (apply NoDup_cons; split;
        [rewrite list_elem_of_singleton; discriminate | apply NoDup_singleton]).
  assert (Hnode : (fun _ : nat => true) 5%nat = true) by reflexivity.
  assert (H : OnEvent (Ext := example_externals) (fun _ => true) [0%nat; 1%nat]
                (EventSinkUnion_EditorEvent EditorEventAction_EntityUpdated (Some 5%nat))
                two_rivers = Handled (Done two_rivers_updated))
    by (vm_compute; reflexivity).
  assert (Hr : 1%nat ∈ [0%nat; 1%nat])
    by (apply elem_of_cons; right; apply list_elem_of_singleton; reflexivity).
  assert (Hd : w_river_data two_rivers !! 1%nat = Some (MkRiverData "rail" 8 None))
    by (vm_compute; reflexivity).
  exact (rail_update_regenerates_every_river (Ext := example_externals)
           (fun _ => true) [0%nat; 1%nat] 5 1 (MkRiverData "rail" 8 None)
           two_rivers two_rivers_updated two_rivers_ok Hnodup Hnode H Hr Hd).
Defined.


